(** * trs-database: the Postgres gateway and the Eventbrite loader

    A shallow embedding of [database.py] and [eventbrite.py].

    - Python values (JSON payloads, rows, datetimes) are the inductive type
      [pyval]; a Python [dict] is an insertion-ordered association list,
      because the order of a record's keys decides the order of the column
      list and of the bound values of an INSERT.
    - Methods that touch the connection, the remote API, the clock or
      [time.sleep] are computations in a state-and-exception monad [M]
      over [state]; every effect is appended to [trace].
    - The process environment, the remote service and the library functions
      whose results the code only passes along (float parsing, [arrow.get],
      [str] of a datetime) are the fields of [Env].
    - Console output ([print]) is not part of the model; the subscripts a
      message evaluates are.
    - SQL is kept as the statement template and its arguments ([stmt]);
      [render] gives the text. Values interpolated into a statement are
      taken to be free of quotes: what the engine makes of a text with a
      quote in it is outside the model.
    - The driver and the engine are modelled as far as the code depends on
      them: the driver binds values (and refuses a dict), builds the row
      template of [execute_values] from the first tuple; the engine checks
      the column list of an INSERT against the catalog. Whether the engine
      takes a row for other reasons (column types, constraints such as the
      unique index on [id]) is the field [refuses] of [Env]. A table is a
      list of rows, a row the fields that were given a value; a statement
      that raises leaves the store as the last commit left it.
    - The client methods the loader never calls ([get_token_info],
      [get_event], [get_order]) are left out, and so is [update_column],
      whose new value is an SQL expression interpolated as text. *)

From Stdlib Require Import ZArith QArith String Ascii List.
From stdpp Require Import base decidable option list gmap strings pretty.

Open Scope Z_scope.
Open Scope string_scope.

(** ** Python values *)

Module Py.

#[warnings="-register-all"]
Inductive pyval : Type :=
| VNone
| VBool (b : bool)
| VInt (z : Z)
| VFloat (q : Q)
| VStr (s : string)
| VTime (t : Z)                        (* a datetime, microseconds since the epoch *)
| VList (l : list pyval)
| VDict (d : list (string * pyval)).

Abbreviation dict := (list (string * pyval)).

Inductive exn : Type :=
| KeyError
| TypeError
| NameError (name : string)
| IndexError
| ValueError
| ParserError                          (* arrow.get on text it cannot parse *)
| DatabaseError                        (* raised by psycopg2: driver or engine *)
| Unmodelled.                          (* a value shape outside [pyval] *)

Inductive outcome (A : Type) : Type :=
| Ok (a : A)
| Raise (e : exn)
| OutOfFuel.
Arguments Ok {A} a.
Arguments Raise {A} e.
Arguments OutOfFuel {A}.

(** [bool(v)] *)
Definition truthy (v : pyval) : bool :=
  match v with
  | VNone => false
  | VBool b => b
  | VInt z => negb (z =? 0)%Z
  | VFloat q => negb (Qeq_bool q 0)
  | VStr s => negb (String.eqb s "")
  | VTime _ => true
  | VList l => match l with [] => false | _ => true end
  | VDict d => match d with [] => false | _ => true end
  end.

(** [d[k]], [d[k] = v], [del d[k]], [list(d)], [d.values()] on a dict. *)
Fixpoint dict_get (k : string) (d : dict) : option pyval :=
  match d with
  | [] => None
  | (k', v) :: d' => if String.eqb k k' then Some v else dict_get k d'
  end.

Fixpoint dict_set (k : string) (v : pyval) (d : dict) : dict :=
  match d with
  | [] => [(k, v)]
  | (k', v') :: d' =>
      if String.eqb k k' then (k, v) :: d' else (k', v') :: dict_set k v d'
  end.

Definition dict_del (k : string) (d : dict) : dict :=
  filter (fun kv => kv.1 <> k) d.

Definition keys (d : dict) : list string := d.*1.
Definition values (d : dict) : list pyval := d.*2.

(** [deepcopy]: values are immutable terms here, so the copy is the value. *)
Definition deepcopy {A : Type} (x : A) : A := x.

(** [v[k]] with a string key. *)
Definition subscript (v : pyval) (k : string) : outcome pyval :=
  match v with
  | VDict d => match dict_get k d with
               | Some x => Ok x
               | None => Raise KeyError
               end
  | _ => Raise TypeError
  end.

(** [v[k] = x] with a string key. *)
Definition store (v : pyval) (k : string) (x : pyval) : outcome pyval :=
  match v with
  | VDict d => Ok (VDict (dict_set k x d))
  | _ => Raise TypeError
  end.

Fixpoint chars (s : string) : list pyval :=
  match s with
  | EmptyString => []
  | String c s' => VStr (String c EmptyString) :: chars s'
  end.

(** [for x in v]: the sequence of values the loop variable takes. *)
Definition iterate (v : pyval) : outcome (list pyval) :=
  match v with
  | VList l => Ok l
  | VDict d => Ok (VStr <$> keys d)
  | VStr s => Ok (chars s)
  | _ => Raise TypeError
  end.

Fixpoint is_prefix (p s : string) : bool :=
  match p, s with
  | EmptyString, _ => true
  | String a p', String b s' => if Ascii.eqb a b then is_prefix p' s' else false
  | String _ _, EmptyString => false
  end.

Fixpoint is_substring (p s : string) : bool :=
  is_prefix p s ||
  match s with
  | EmptyString => false
  | String _ s' => is_substring p s'
  end.

(** [l[i]] on a sequence, with Python's negative indices. *)
Definition index (l : list pyval) (i : Z) : outcome pyval :=
  let n := Z.of_nat (length l) in
  let j := if (i <? 0)%Z then (i + n)%Z else i in
  if ((0 <=? j)%Z && (j <? n)%Z)%bool
  then match l !! Z.to_nat j with
       | Some x => Ok x
       | None => Raise IndexError
       end
  else Raise IndexError.

(** [v[key]] where the key is itself a value (a loop variable). *)
Definition subscript_by (v key : pyval) : outcome pyval :=
  match v, key with
  | VDict _, VStr k => subscript v k
  | VDict _, (VList _ | VDict _) => Raise TypeError
  | VDict _, _ => Raise KeyError
  | VList l, VInt i => index l i
  | VList l, VBool b => index l (if b then 1 else 0)
  | VStr s, VInt i => index (chars s) i
  | VStr s, VBool b => index (chars s) (if b then 1 else 0)
  | _, _ => Raise TypeError
  end.

(** [v[key] = x] where the key is a value. A dict of [pyval] has string
    keys only; a hashable key of another type falls outside it. *)
Definition store_by (v key x : pyval) : outcome pyval :=
  match v, key with
  | VDict _, VStr k => store v k x
  | VDict _, (VList _ | VDict _) => Raise TypeError
  | VDict _, _ => Raise Unmodelled
  | VList _, (VInt _ | VBool _) => Raise Unmodelled
  | _, _ => Raise TypeError
  end.

(** ['k' in v] for a string literal ['k']. *)
Definition contains (k : string) (v : pyval) : outcome bool :=
  match v with
  | VDict d => Ok (bool_decide (k ∈ keys d))
  | VList l => Ok (existsb (fun x => match x with
                                     | VStr s => String.eqb s k
                                     | _ => false
                                     end) l)
  | VStr s => Ok (is_substring k s)
  | _ => Raise TypeError
  end.

(** [v + 1] *)
Definition add_one (v : pyval) : outcome pyval :=
  match v with
  | VInt z => Ok (VInt (z + 1))
  | VBool b => Ok (VInt ((if b then 1 else 0) + 1))
  | VFloat q => Ok (VFloat (q + 1)%Q)
  | _ => Raise TypeError
  end.

(** [v > 0] *)
Definition gt_zero (v : pyval) : outcome bool :=
  match v with
  | VInt z => Ok (0 <? z)%Z
  | VBool b => Ok b
  | VFloat q => Ok (negb (Qle_bool q 0))
  | _ => Raise TypeError
  end.

(** [', '.join(l)] *)
Fixpoint join (sep : string) (l : list string) : string :=
  match l with
  | [] => ""
  | [x] => x
  | x :: l' => x ++ sep ++ join sep l'
  end.

End Py.
Export Py.

(** ** SQL statements

    Each constructor is one of the statement templates of [database.py];
    [render] gives the text the code builds with [str.format]. *)

Module Sql.

Inductive stmt : Type :=
| RefreshView (schema view : string)
| CreateTableAs (schema target source : string)
| Truncate (schema table : string)
| SelectColumnNames (schema table : string)
| InsertRow (schema table : string) (cols : list string) (n : nat)
| InsertRows (schema table : string) (cols : list string)
| DeleteWhere (schema table : string) (conds : list (string * string))
| SelectWhere (schema table : string) (conds : list (string * string))
| SelectMaxLoad (schema : string).

Definition nl : string := String (ascii_of_nat 10) EmptyString.
Fixpoint pad (n : nat) : string :=
  match n with
  | O => ""
  | S n' => " " ++ pad n'
  end.

(** ["(" + ', '.join(xs) + ")"] *)
Definition parens (xs : list string) : string := "(" ++ join ", " xs ++ ")".

(** The tail [" AND k='v'"] appended once per secondary filter. *)
Definition and_conds (conds : list (string * string)) : string :=
  foldl (fun sql kv => sql ++ " AND " ++ kv.1 ++ "='" ++ kv.2 ++ "'") "" conds.

Definition where_conds (conds : list (string * string)) : string :=
  match conds with
  | [] => ""
  | (k, v) :: rest => " WHERE " ++ k ++ "='" ++ v ++ "'" ++ and_conds rest
  end.

Definition render (s : stmt) : string :=
  match s with
  | RefreshView schema view =>
      "REFRESH MATERIALIZED VIEW" ++ nl ++ pad 17 ++ schema ++ "." ++ view
  | CreateTableAs schema target source =>
      nl ++ pad 12 ++ "DROP TABLE IF EXISTS " ++ schema ++ "." ++ target ++ ";" ++
      nl ++ pad 12 ++ "CREATE TABLE " ++ schema ++ "." ++ target ++
      nl ++ pad 12 ++ "AS SELECT *" ++
      nl ++ pad 12 ++ "FROM " ++ schema ++ "." ++ source ++
      nl ++ pad 8
  | Truncate schema table => "TRUNCATE " ++ schema ++ "." ++ table
  | SelectColumnNames schema table =>
      nl ++ pad 12 ++ "SELECT DISTINCT column_name" ++
      nl ++ pad 12 ++ "FROM information_schema.columns" ++
      nl ++ pad 12 ++ "WHERE table_schema='" ++ schema ++ "'" ++
      nl ++ pad 12 ++ "AND table_name='" ++ table ++ "'" ++
      nl ++ pad 8
  | InsertRow schema table cols n =>
      nl ++ pad 12 ++ "INSERT INTO " ++ schema ++ "." ++ table ++
      nl ++ pad 12 ++ parens cols ++
      nl ++ pad 12 ++ "VALUES" ++
      nl ++ pad 12 ++ parens (replicate n "%s") ++
      nl ++ pad 8
  | InsertRows schema table cols =>
      nl ++ pad 12 ++ "INSERT INTO " ++ schema ++ "." ++ table ++
      nl ++ pad 12 ++ parens cols ++
      nl ++ pad 12 ++ "VALUES" ++
      nl ++ pad 12 ++ "%s" ++
      nl ++ pad 8
  | DeleteWhere schema table conds =>
      "DELETE FROM " ++ schema ++ "." ++ table ++ where_conds conds
  | SelectWhere schema table conds =>
      "SELECT * FROM " ++ schema ++ "." ++ table ++ where_conds conds
  | SelectMaxLoad schema =>
      nl ++ pad 12 ++ "SELECT max(load_datetime) as max_start" ++
      nl ++ pad 12 ++ "FROM " ++ schema ++ ".events" ++
      nl ++ pad 12 ++ "WHERE start_datetime IS NOT NULL" ++
      nl ++ pad 8
  end.

End Sql.
Export Sql.

(** ** The world outside the process *)

(** A call to the Eventbrite REST API, as the client builds it: the resource
    and the query parameters next to the token. *)
Inductive request : Type :=
| GetEvents (org_id : pyval) (range_start modified_start : option string)
            (page : pyval)
| GetAttendees (event_id page : pyval)
| GetVenue (venue_id page : pyval).

(** The relational store: the catalog of column names per table and the rows
    of each table. A table without an entry has no columns and no rows. *)
Record database : Type := {
  catalog : gmap string (list string);
  tables : gmap string (list dict)
}.

Record Env : Type := {
  PG_SCHEMA : string;                  (* os.environ['PG_SCHEMA'] *)
  EVENTBRITE_ORG : pyval;              (* os.environ['EVENTBRITE_ORG'] *)
  respond : nat -> request -> Z * pyval;
    (* status code and parsed body of the answer to a request, given how
       many requests were sent before it *)
  clock : nat -> Z;                    (* the n-th reading of the UTC clock *)
  local_offset : Z;                    (* local time minus UTC *)
  parse_float : string -> option Q;    (* float(text), None for ValueError *)
  arrow_get : pyval -> option Z;       (* arrow.get(v).datetime *)
  date_prefix : Z -> string;           (* str(datetime)[:10] *)
  repr : pyval -> string;              (* str() of floats, datetimes, containers *)
  refuses : database -> string -> dict -> bool
    (* the engine refuses the row for the table although its columns
       exist: a value of the wrong type, a violated constraint *)
}.

(** What the process does to the outside, in order. An entry is a call
    ([requests.get], [time.sleep], [cursor.execute], [execute_values],
    [pd.read_sql], [connection.commit]), recorded when it is made, whether
    it then returns or raises. *)
Inductive io : Type :=
| Request (r : request)
| Sleep (secs : Z)
| Execute (s : stmt) (params : list pyval)
| ExecuteValues (s : stmt) (rows : list (list pyval))
| ReadSql (s : stmt)
| Commit.

Record state : Type := {
  self_columns : gmap string (list string);   (* Database.columns *)
  db : database;
  trace : list io;
  requests : nat;
  clock_reads : nat
}.

Definition M (A : Type) : Type := state -> outcome A * state.

Definition ret {A : Type} (a : A) : M A := fun st => (Ok a, st).

Definition raise {A : Type} (e : exn) : M A := fun st => (Raise e, st).

Definition out_of_fuel {A : Type} : M A := fun st => (OutOfFuel, st).

Definition bind {A B : Type} (m : M A) (k : A -> M B) : M B :=
  fun st =>
    match m st with
    | (Ok a, st') => k a st'
    | (Raise e, st') => (Raise e, st')
    | (OutOfFuel, st') => (OutOfFuel, st')
    end.

Definition lift {A : Type} (o : outcome A) : M A := fun st => (o, st).

Declare Scope py_scope.
Delimit Scope py_scope with py.
Notation "'let*' x ':=' m 'in' k" := (bind m (fun x => k))
  (at level 10, x name, m at level 100, k at level 200) : py_scope.
Notation "m '>>' k" := (bind m (fun _ => k))
  (at level 100, k at level 200, right associativity) : py_scope.
Open Scope py_scope.

(** [for x in xs: body(x)]; [continue] is [ret tt] in the body. *)
Fixpoint for_each {A : Type} (xs : list A) (body : A -> M unit) : M unit :=
  match xs with
  | [] => ret tt
  | x :: xs' => body x >> for_each xs' body
  end.

Definition emit (e : io) : M unit :=
  fun st => (Ok tt, {| self_columns := self_columns st; db := db st;
                       trace := trace st ++ [e];
                       requests := requests st;
                       clock_reads := clock_reads st |}).

Definition set_db (d : database) : M unit :=
  fun st => (Ok tt, {| self_columns := self_columns st; db := d;
                       trace := trace st;
                       requests := requests st;
                       clock_reads := clock_reads st |}).

Definition set_columns (c : gmap string (list string)) : M unit :=
  fun st => (Ok tt, {| self_columns := c; db := db st;
                       trace := trace st;
                       requests := requests st;
                       clock_reads := clock_reads st |}).

Definition get_state : M state := fun st => (Ok st, st).

(** [time.sleep(secs)] *)
Definition sleep (secs : Z) : M unit := emit (Sleep secs).

Section World.
Context (env : Env).

(** [str(v)], as [str.format] and the percent operator apply it. *)
Definition str (v : pyval) : string :=
  match v with
  | VNone => "None"
  | VBool true => "True"
  | VBool false => "False"
  | VInt z => pretty z
  | VStr s => s
  | _ => repr env v
  end.

(** [float(v)] *)
Definition float (v : pyval) : outcome pyval :=
  match v with
  | VStr s => match parse_float env s with
              | Some q => Ok (VFloat q)
              | None => Raise ValueError
              end
  | VInt z => Ok (VFloat (inject_Z z))
  | VBool b => Ok (VFloat (inject_Z (if b then 1 else 0)))
  | VFloat q => Ok (VFloat q)
  | _ => Raise TypeError
  end.

(** [requests.get(url)] followed by the status test of the client. *)
Definition http_get (r : request) : M (Z * pyval) :=
  fun st => (Ok (respond env (requests st) r),
             {| self_columns := self_columns st; db := db st;
                trace := trace st ++ [Request r];
                requests := S (requests st);
                clock_reads := clock_reads st |}).

Definition read_clock : M Z :=
  fun st => (Ok (clock env (clock_reads st)),
             {| self_columns := self_columns st; db := db st;
                trace := trace st;
                requests := requests st;
                clock_reads := S (clock_reads st) |}).

(** [datetime.datetime.utcnow()] and [datetime.datetime.now()] *)
Definition utcnow : M pyval := let* t := read_clock in ret (VTime t).
Definition now : M pyval :=
  let* t := read_clock in ret (VTime (t + local_offset env)).

(** *** The driver and the engine

    A condition [k='v'] holds of a row whose field [k] is not null and
    prints as [v]. Refreshing a view leaves the row model as it is. *)

Definition rows_of (d : database) (t : string) : list dict :=
  default [] (tables d !! t).

Definition with_rows (d : database) (t : string) (rows : list dict) : database :=
  {| catalog := catalog d; tables := <[t := rows]> (tables d) |}.

Definition holds (row : dict) (cond : string * string) : bool :=
  match dict_get cond.1 row with
  | Some VNone | None => false
  | Some v => String.eqb (str v) cond.2
  end.

Definition selects (conds : list (string * string)) (row : dict) : bool :=
  forallb (holds row) conds.

Definition load_times (rows : list dict) : list Z :=
  omap (fun row =>
          match dict_get "start_datetime" row, dict_get "load_datetime" row with
          | Some VNone, _ | None, _ => None
          | Some _, Some (VTime t) => Some t
          | Some _, _ => None
          end) rows.

Definition maximum (l : list Z) : pyval :=
  match l with
  | [] => VNone
  | t :: l' => VTime (foldl Z.max t l')
  end.

(** The rows a query selects. A row of the data frame of [pd.read_sql] has
    an entry for every column of the table; the model keeps the fields that
    have a value and leaves out the entries that are [None]. *)
Definition db_query (s : stmt) (d : database) : outcome (list dict) :=
  match s with
  | SelectColumnNames _ t =>
      Ok ((fun c => [("column_name", VStr c)]) <$>
          remove_dups (default [] (catalog d !! t)))
  | SelectWhere _ t conds => Ok (List.filter (selects conds) (rows_of d t))
  | SelectMaxLoad _ =>
      Ok [[("max_start", maximum (load_times (rows_of d "events")))]]
  | _ => Raise DatabaseError
  end.

(** The values the driver can bind: [None], booleans, numbers, text,
    datetimes, and lists of such; a dict has no adapter. *)
Fixpoint adaptable (v : pyval) : bool :=
  match v with
  | VDict _ => false
  | VList l => forallb adaptable l
  | _ => true
  end.

(** Binding [args] to [n] placeholders, left to right: a missing argument
    is an IndexError, a value without an adapter a ProgrammingError (a
    [DatabaseError]), arguments left over a TypeError. *)
Fixpoint bind_each (n : nat) (args : list pyval) : option exn :=
  match n, args with
  | O, [] => None
  | O, _ :: _ => Some TypeError
  | S _, [] => Some IndexError
  | S n', v :: args' =>
      if adaptable v then bind_each n' args' else Some DatabaseError
  end.

(** The driver looks at the arguments only when the text has a
    placeholder. *)
Definition mogrify (n : nat) (args : list pyval) : option exn :=
  match n with
  | O => None
  | S _ => bind_each n args
  end.

Definition columns_of (d : database) (t : string) : list string :=
  default [] (catalog d !! t).

(** The engine takes [INSERT INTO t (cols) VALUES (row)]: the column list
    is not empty, names columns of the table, each once, the row is as wide
    as the list, and the row is not refused. *)
Definition engine_accepts (d : database) (t : string) (cols : list string)
                          (row : list pyval) : bool :=
  bool_decide (cols <> [] /\ NoDup cols /\ length row = length cols /\
               cols ⊆ columns_of d t)
  && negb (refuses env d t (zip cols row)).

(** The rows of a multi-row INSERT, taken one after the other; [None] when
    the engine does not take one of them. *)
Fixpoint insert_all (d : database) (t : string) (cols : list string)
                    (rows : list (list pyval)) : option database :=
  match rows with
  | [] => Some d
  | row :: rows' =>
      if engine_accepts d t cols row
      then insert_all (with_rows d t (rows_of d t ++ [zip cols row])) t cols rows'
      else None
  end.

(** Why a single-row INSERT with [n] placeholders fails, if it does: the
    driver cannot bind the arguments, the text has another number of
    placeholders than of columns, or the engine does not take the row. *)
Definition insert_error (d : database) (t : string) (cols : list string)
                        (n : nat) (params : list pyval) : option exn :=
  match mogrify n params with
  | Some e => Some e
  | None =>
      if bool_decide (length cols = n) && engine_accepts d t cols params
      then None else Some DatabaseError
  end.

(** [DROP TABLE IF EXISTS target; CREATE TABLE target AS SELECT * FROM
    source] is one text: when [source] is [target] the table is gone by
    the time it is read, so the text fails whether or not the table was
    there. *)
Definition db_execute (s : stmt) (params : list pyval) (d : database)
  : outcome database :=
  match s with
  | InsertRow _ t cols n =>
      match insert_error d t cols n params with
      | Some e => Raise e
      | None => Ok (with_rows d t (rows_of d t ++ [zip cols params]))
      end
  | DeleteWhere _ t conds =>
      Ok (with_rows d t (List.filter (fun r => negb (selects conds r)) (rows_of d t)))
  | Truncate _ t => Ok (with_rows d t [])
  | RefreshView _ _ => Ok d
  | CreateTableAs _ target source =>
      match catalog d !! source with
      | Some columns =>
          if bool_decide (target = source) then Raise DatabaseError
          else Ok {| catalog := <[target := columns]> (catalog d);
                     tables := <[target := rows_of d source]> (tables d) |}
      | None => Raise DatabaseError
      end
  | _ => Raise DatabaseError
  end.

(** [execute_values]: the driver builds the row template from the first
    tuple and binds every tuple to it, in order, before anything is sent;
    the first tuple that does not fit raises as [mogrify] says. The engine
    then takes all the rows or none. The call is one entry of the trace;
    how the driver pages the tuples it sends is not modelled. *)
Definition db_execute_values (s : stmt) (rows : list (list pyval)) (d : database)
  : outcome database :=
  match s with
  | InsertRows _ t cols =>
      match rows with
      | [] => Ok d
      | first :: _ =>
          match omap (mogrify (length first)) rows with
          | e :: _ => Raise e
          | [] =>
              match insert_all d t cols rows with
              | Some d' => Ok d'
              | None => Raise DatabaseError
              end
          end
      end
  | _ => Raise DatabaseError
  end.

(** [cursor.execute(sql, params)] *)
Definition cursor_execute (s : stmt) (params : list pyval) : M unit :=
  emit (Execute s params) >>
  let* st := get_state in
  let* d := lift (db_execute s params (db st)) in
  set_db d.

(** [execute_values(cursor, sql, rows)] *)
Definition execute_values (s : stmt) (rows : list (list pyval)) : M unit :=
  emit (ExecuteValues s rows) >>
  let* st := get_state in
  let* d := lift (db_execute_values s rows (db st)) in
  set_db d.

(** [connection.commit()] *)
Definition commit : M unit := emit Commit.

(** [pd.read_sql(sql, connection)]: the rows of the data frame. *)
Definition read_sql (s : stmt) : M (list dict) :=
  emit (ReadSql s) >>
  let* st := get_state in
  lift (db_query s (db st)).

End World.

(** ** database.py *)

Module Database.
Section Methods.
Context (env : Env).

Definition MATERIALIZED_VIEWS : list string :=
  ["event_aggregates"; "members_view"; "participants"].

Definition run_query (sql : stmt) (commit_ : bool) : M unit :=
  cursor_execute env sql [] >>
  if commit_ then commit else ret tt.

Definition refresh_view (view : string) : M unit :=
  let sql := RefreshView (PG_SCHEMA env) view in
  run_query sql true.

Definition refresh_views : M unit :=
  for_each MATERIALIZED_VIEWS refresh_view.

Definition backup_table (table : string) : M unit :=
  let sql := CreateTableAs (PG_SCHEMA env) (table ++ "_backup") table in
  run_query sql true.

Definition revert_table (table : string) : M unit :=
  let sql := CreateTableAs (PG_SCHEMA env) table table in
  run_query sql true.

Definition truncate_table (table : string) : M unit :=
  let sql := Truncate (PG_SCHEMA env) table in
  run_query sql true.

Definition get_columns (table : string) : M (list string) :=
  let sql := SelectColumnNames (PG_SCHEMA env) table in
  let* df := read_sql env sql in
  let columns := omap (fun row => match dict_get "column_name" row with
                                  | Some (VStr x) => Some x
                                  | _ => None
                                  end) df in
  ret columns.

(** The first three statements of [load_item] and of [load_items]:
    the column names of [table], from the cache when it has them. *)
Definition table_columns (table : string) : M (list string) :=
  let* st := get_state in
  match self_columns st !! table with
  | Some columns => ret columns
  | None =>
      let* columns := get_columns table in
      let* st' := get_state in
      set_columns (<[table := columns]> (self_columns st')) >>
      ret columns
  end.

(** The copy of [item] after the loop that deletes every key that is not
    a column. *)
Definition valid_fields (columns : list string) (item : dict) : dict :=
  foldl (fun item_ key =>
           if bool_decide (key ∈ columns) then item_ else dict_del key item_)
        (deepcopy item) (keys item).

(** [tuple([item_[x] for x in item_])] *)
Definition bound_values (item_ : dict) : list pyval :=
  omap (fun x => dict_get x item_) (keys item_).

Definition load_item (item : dict) (table : string) : M unit :=
  let* columns := table_columns table in
  let item_ := valid_fields columns item in
  let n := length item_ in
  let sql := InsertRow (PG_SCHEMA env) table (keys item_) n in
  let values := bound_values item_ in
  cursor_execute env sql values >>
  commit.

Definition load_items (items : list dict) (table : string) : M unit :=
  let* columns := table_columns table in
  match items with
  | [] => raise IndexError
  | first :: _ =>
      let item_ := valid_fields columns first in
      let sql := InsertRows (PG_SCHEMA env) table (keys item_) in
      let all_values :=
        (fun item => bound_values (valid_fields columns item)) <$> items in
      execute_values env sql all_values >>
      commit
  end.

(** The conditions after [WHERE]: the identifier, then one per key of a
    non-empty [secondary]. *)
Definition id_cond (item_id : pyval) : list (string * string) :=
  [("id", str env item_id)].

Definition secondary_conds (secondary : option dict) : list (string * string) :=
  match secondary with
  | Some sec =>
      if truthy (VDict sec)
      then omap (fun key => (fun v => (key, str env v)) <$> dict_get key sec)
                (keys sec)
      else []
  | None => []
  end.

Definition delete_item (table : string) (item_id : pyval)
                       (secondary : option dict) : M unit :=
  let sql := DeleteWhere (PG_SCHEMA env) table
                         (id_cond item_id ++ secondary_conds secondary) in
  run_query sql true.

(** The statement [sql] holds once the function returns: the secondary
    filters are appended to it after [read_sql] has run. *)
Definition get_item_sql (table : string) (item_id : pyval)
                        (secondary : option dict) : stmt :=
  SelectWhere (PG_SCHEMA env) table
              (id_cond item_id ++ secondary_conds secondary).

Definition get_item (table : string) (item_id : pyval)
                    (secondary : option dict) : M pyval :=
  let sql := SelectWhere (PG_SCHEMA env) table (id_cond item_id) in
  let* df := read_sql env sql in
  let sql := get_item_sql table item_id secondary in
  match df with
  | row :: _ => ret (VDict row)
  | [] => ret VNone
  end.

Definition last_event_load_date : M pyval :=
  let sql := SelectMaxLoad (PG_SCHEMA env) in
  let* df := read_sql env sql in
  match df with
  | row :: _ =>
      let* time := lift (subscript (VDict row) "max_start") in
      if truthy time then ret time else ret VNone
  | [] => ret VNone
  end.

End Methods.
End Database.

(** ** eventbrite.py: the REST client *)

Module Eventbrite.
Section Methods.
Context (env : Env).

(** The tail shared by the client methods: any status but 200 is [None],
    otherwise the parsed body. *)
Definition parse (response : Z * pyval) : pyval :=
  if (response.1 =? 200)%Z then response.2 else VNone.

(** [if start: date = start + 'T0:00:00'] *)
Definition range_param (start : pyval) : outcome (option string) :=
  if truthy start
  then match start with
       | VStr s => Ok (Some (s ++ "T0:00:00"))
       | _ => Raise TypeError
       end
  else Ok None.

(** [org_id] has no default: a call that does not bind it ([None] here)
    raises TypeError before the body runs. *)
Definition get_events (org_id : option pyval) (start last_modified page : pyval)
  : M pyval :=
  match org_id with
  | None => raise TypeError
  | Some org_id =>
      let* range_start := lift (range_param start) in
      let* modified_start := lift (range_param last_modified) in
      let* response := http_get env (GetEvents org_id range_start modified_start page) in
      ret (parse response)
  end.

Definition get_attendees (event_id page : pyval) : M pyval :=
  let* response := http_get env (GetAttendees event_id page) in
  ret (parse response).

Definition get_venue (venue_id page : pyval) : M pyval :=
  let* response := http_get env (GetVenue venue_id page) in
  ret (parse response).

End Methods.
End Eventbrite.

(** ** eventbrite.py: the loader *)

Module EventbriteLoader.
Section Methods.
Context (env : Env).

(** Reading a name bound neither in the function nor in the module. *)
Definition unbound {A : Type} (name : string) : M A := raise (NameError name).

Definition as_dict (v : pyval) : outcome dict :=
  match v with
  | VDict d => Ok d
  | _ => Raise TypeError
  end.

(** [arrow.get(v).datetime] *)
Definition datetime_of (v : pyval) : outcome pyval :=
  match arrow_get env v with
  | Some t => Ok (VTime t)
  | None => Raise ParserError
  end.

Definition get_events (start page : pyval) : M pyval :=
  let org_id := EVENTBRITE_ORG env in
  let* events := Eventbrite.get_events env (Some org_id) start VNone page in
  if negb (truthy events)
  then sleep 3600 >>
       let* events := Eventbrite.get_events env None start VNone page in
       ret events
  else ret events.

Definition get_attendees (event_id page : pyval) : M pyval :=
  let* attendees := Eventbrite.get_attendees env event_id page in
  if negb (truthy attendees)
  then sleep 3600 >>
       let* attendees := Eventbrite.get_attendees env event_id page in
       ret attendees
  else ret attendees.

Definition get_venue (venue_id page : pyval) : M pyval :=
  let* venue := Eventbrite.get_venue env venue_id page in
  if negb (truthy venue)
  then sleep 3600 >>
       let* event_id := unbound "event_id" in
       let* venue := Eventbrite.get_venue env event_id page in
       ret venue
  else ret venue.

Definition load_event (event : pyval) : M unit :=
  let event_ := deepcopy event in
  let* s := lift (subscript event_ "start") in
  let* utc := lift (subscript s "utc") in
  let* start := lift (datetime_of utc) in
  let* event_ := lift (store event_ "start_datetime" start) in
  let* e := lift (subscript event_ "end") in
  let* utc := lift (subscript e "utc") in
  let* end_ := lift (datetime_of utc) in
  let* event_ := lift (store event_ "end_datetime" end_) in
  let* d := lift (subscript event_ "description") in
  let* description := lift (subscript d "text") in
  let* event_ := lift (store event_ "description" description) in
  let* n := lift (subscript event_ "name") in
  let* name := lift (subscript n "text") in
  let* event_ := lift (store event_ "name" name) in
  let* t := utcnow env in
  let* event_ := lift (store event_ "load_datetime" t) in
  let* item := lift (as_dict event_) in
  Database.load_item env item "events".

(** [if k in profile: attendee_[k] = profile[k]] *)
Definition copy_field (profile : pyval) (k : string) (attendee_ : pyval)
  : M pyval :=
  let* present := lift (contains k profile) in
  if present : bool
  then let* v := lift (subscript profile k) in
       lift (store attendee_ k v)
  else ret attendee_.

(** [x_['cost'] = float(x_['costs']['gross']['major_value'])] *)
Definition set_cost (x_ : pyval) : M pyval :=
  let* costs := lift (subscript x_ "costs") in
  let* gross := lift (subscript costs "gross") in
  let* cost := lift (subscript gross "major_value") in
  let* f := lift (float env cost) in
  lift (store x_ "cost" f).

Definition load_attendee (attendee : pyval) : M unit :=
  let attendee_ := deepcopy attendee in
  let* profile := lift (subscript attendee_ "profile") in
  let* attendee_ := copy_field profile "name" attendee_ in
  let* attendee_ := copy_field profile "first_name" attendee_ in
  let* attendee_ := copy_field profile "last_name" attendee_ in
  let* attendee_ := copy_field profile "email" attendee_ in
  let* attendee_ := set_cost attendee_ in
  let* t := utcnow env in
  let* attendee_ := lift (store attendee_ "load_datetime" t) in
  let* item := lift (as_dict attendee_) in
  Database.load_item env item "attendees".

Definition load_order (order : pyval) : M unit :=
  let order_ := deepcopy order in
  let* order_ := set_cost order_ in
  let* t := utcnow env in
  let* order_ := lift (store order_ "load_datetime" t) in
  let* item := lift (as_dict order_) in
  Database.load_item env item "orders".

(** The loop over [venue_['address']]: the keys are those of the address
    read when the loop starts; each round reads [venue_['address']] again. *)
Fixpoint flatten_address (ks : list pyval) (venue_ : pyval) : M pyval :=
  match ks with
  | [] => ret venue_
  | key :: ks' =>
      let* address := lift (subscript venue_ "address") in
      let* val := lift (subscript_by address key) in
      let* venue_ := lift (store_by venue_ key val) in
      flatten_address ks' venue_
  end.

(** [x_[k] = float(x_[k])] *)
Definition to_float (k : string) (x_ : pyval) : M pyval :=
  let* v := lift (subscript x_ k) in
  let* f := lift (float env v) in
  lift (store x_ k f).

Definition load_venue (venue : pyval) : M unit :=
  let venue_ := deepcopy venue in
  let* address := lift (subscript venue_ "address") in
  let* ks := lift (iterate address) in
  let* venue_ := flatten_address ks venue_ in
  let* venue_ := to_float "latitude" venue_ in
  let* venue_ := to_float "longitude" venue_ in
  let* item := lift (as_dict venue_) in
  Database.load_item env item "venues".

(** One round of [for attendee in attendees['attendees']]. *)
Definition run_attendee (event_id attendee : pyval) : M unit :=
  if negb (truthy attendee) then ret tt
  else
    let* attendee_id := lift (subscript attendee "id") in
    Database.delete_item env "attendees" attendee_id
                         (Some [("event_id", event_id)]) >>
    load_attendee attendee.

(** [while more_attendees: ...]; [fuel] bounds the number of rounds. *)
Fixpoint attendees_loop (fuel : nat) (event_id attendees : pyval) : M unit :=
  match fuel with
  | O => out_of_fuel
  | S fuel' =>
      if negb (truthy attendees) then ret tt
      else
        let* l := lift (subscript attendees "attendees") in
        let* xs := lift (iterate l) in
        for_each xs (run_attendee event_id) >>
        let* pagination := lift (subscript attendees "pagination") in
        let* more := lift (subscript pagination "has_more_items") in
        if negb (truthy more) then ret tt
        else
          let* pagination := lift (subscript attendees "pagination") in
          let* number := lift (subscript pagination "page_number") in
          let* page := lift (add_one number) in
          let* attendees := get_attendees event_id page in
          attendees_loop fuel' event_id attendees
  end.

(** Lines 174-180: the venue of an event is looked up, then fetched and
    loaded when the event names one and the lookup found nothing. *)
Definition run_venue (event : pyval) : M unit :=
  let* venue_id := lift (subscript event "venue_id") in
  let* venue_ := Database.get_item env "venues" venue_id None in
  if truthy venue_id && negb (truthy venue_)
  then let* venue := get_venue venue_id (VInt 1) in
       load_venue venue
  else ret tt.

(** One round of [for event in events['events']]. *)
Definition run_event (fuel : nat) (event : pyval) : M unit :=
  if negb (truthy event) then ret tt
  else
    let* name := lift (subscript event "name") in
    let* msg := lift (subscript name "text") in
    let* event_id := lift (subscript event "id") in
    Database.delete_item env "events" event_id None >>
    load_event event >>
    run_venue event >>
    let* attendees := get_attendees event_id (VInt 1) in
    attendees_loop fuel event_id attendees >>
    sleep 60.

(** [while more_events: ...]; [fuel] bounds the number of pages and
    [fuel_a] the attendee pages of one event. *)
Fixpoint events_loop (fuel_a fuel : nat) (start events : pyval) : M unit :=
  match fuel with
  | O => out_of_fuel
  | S fuel' =>
      let* l := lift (subscript events "events") in
      let* xs := lift (iterate l) in
      for_each xs (run_event fuel_a) >>
      let* pagination := lift (subscript events "pagination") in
      let* more := lift (subscript pagination "has_more_items") in
      if negb (truthy more) then ret tt
      else
        let* pagination := lift (subscript events "pagination") in
        let* number := lift (subscript pagination "page_number") in
        let* page := lift (add_one number) in
        let* events := get_events start page in
        events_loop fuel_a fuel' start events
  end.

Definition one_day : Z := 86400000000.

(** The start date of the load: lines 143-151. *)
Definition start_date : M pyval :=
  let* last_load_date := Database.last_event_load_date env in
  if truthy last_load_date
  then let* n := now env in
       match n, last_load_date with
       | VTime n, VTime last =>
           let one_day_ago := (n - one_day)%Z in
           let first_event := Z.min one_day_ago last in
           ret (VStr (date_prefix env first_event))
       | _, _ => raise TypeError
       end
  else ret VNone.

Definition run (fuel_a fuel : nat) : M unit :=
  let* start := start_date in
  let* events := get_events start (VInt 1) in
  let* pagination := lift (subscript events "pagination") in
  let* num_events := lift (subscript pagination "object_count") in
  let* some := lift (gt_zero num_events) in
  if some : bool
  then events_loop fuel_a fuel start events >>
       Database.refresh_views env
  else ret tt.

End Methods.
End EventbriteLoader.

(** ** Vocabulary of the statements below *)

(** The column names [load_item] works with: the cached list, or the
    distinct names of the catalog when the table is not cached yet. *)
Definition known_columns (st : state) (table : string) : list string :=
  match self_columns st !! table with
  | Some columns => columns
  | None => remove_dups (default [] (catalog (db st) !! table))
  end.

(** What looking the columns up adds to the trace and to the cache. *)
Definition lookup_io (env : Env) (st : state) (table : string) : list io :=
  match self_columns st !! table with
  | Some _ => []
  | None => [ReadSql (SelectColumnNames (PG_SCHEMA env) table)]
  end.

Definition cache_after (st : state) (table : string) : gmap string (list string) :=
  match self_columns st !! table with
  | Some _ => self_columns st
  | None => <[table := known_columns st table]> (self_columns st)
  end.

(** The state once the columns of [table] have been looked up. *)
Definition after_lookup (env : Env) (st : state) (table : string) : state :=
  {| self_columns := cache_after st table; db := db st;
     trace := trace st ++ lookup_io env st table;
     requests := requests st; clock_reads := clock_reads st |}.

(** The fields of [item] whose names are columns. *)
Definition recognised (columns : list string) (item : dict) : dict :=
  filter (fun kv => kv.1 ∈ columns) item.

(** The driver can bind every value of [row] and the engine takes the row
    for [table]; in particular [row] has a field. *)
Definition insert_accepted (env : Env) (d : database) (table : string)
                           (row : dict) : bool :=
  forallb adaptable (values row)
  && engine_accepts env d table (keys row) (values row).

(** The same for the tuples of a batch under the column list [cols]:
    every tuple is as wide as the list, the driver can bind every value,
    and the engine takes the rows one after the other. *)
Definition batch_accepted (env : Env) (d : database) (table : string)
                          (cols : list string) (rows : list (list pyval))
  : bool :=
  forallb (fun row => (length row =? length cols)%nat) rows
  && forallb (forallb adaptable) rows
  && bool_decide (is_Some (insert_all env d table cols rows)).

(** The Eventbrite requests of a trace, and those for event pages. *)
Definition requests_of (tr : list io) : list request :=
  omap (fun e => match e with Request r => Some r | _ => None end) tr.

Definition is_events_request (e : io) : bool :=
  match e with
  | Request (GetEvents _ _ _ _) => true
  | _ => false
  end.

Definition events_requests (tr : list io) : list io :=
  List.filter is_events_request tr.

Definition is_sleep (e : io) : bool :=
  match e with
  | Sleep _ => true
  | _ => false
  end.

Definition sleeps (tr : list io) : list io := List.filter is_sleep tr.

(** A computation is quiet when it only adds to the trace and adds no
    request for a page of events. *)
Definition quiet {A : Type} (m : M A) : Prop :=
  forall st, exists d,
    trace (m st).2 = (trace st ++ d)%list /\ events_requests d = [].

(** A computation is stateless when it returns or raises without touching
    the state. *)
Definition settled {A : Type} (o : outcome A) : Prop :=
  (exists a, o = Ok a) \/ (exists e, o = Raise e).

Definition stateless {A : Type} (m : M A) : Prop :=
  exists o, settled o /\ forall st, m st = (o, st).

(** [m] runs to a value that satisfies [Q] from every state that satisfies
    [I], and leaves a state that satisfies [I]. *)
Definition total {A : Type} (I : state -> Prop) (m : M A) (Q : A -> Prop) : Prop :=
  forall st, I st -> exists a st1, m st = (Ok a, st1) /\ I st1 /\ Q a.

(** The store has the catalog [cat], and the cache holds nothing but the
    distinct column names that [cat] lists. *)
Definition consistent (cat : gmap string (list string)) (st : state) : Prop :=
  catalog (db st) = cat /\
  forall t cols, self_columns st !! t = Some cols ->
                 cols = remove_dups (default [] (cat !! t)).

(** The statements and commits of [refresh_views]. *)
Definition refresh_io (env : Env) : list io :=
  concat ((fun view => [Execute (RefreshView (PG_SCHEMA env) view) []; Commit])
          <$> Database.MATERIALIZED_VIEWS).

(** The state after more entries in the trace, after a request, after a
    pause. *)
Definition logged (es : list io) (st : state) : state :=
  {| self_columns := self_columns st; db := db st;
     trace := trace st ++ es;
     requests := requests st; clock_reads := clock_reads st |}.

Definition sent (r : request) (st : state) : state :=
  {| self_columns := self_columns st; db := db st;
     trace := trace st ++ [Request r];
     requests := S (requests st); clock_reads := clock_reads st |}.

Definition slept (secs : Z) (st : state) : state := logged [Sleep secs] st.

(** The state after one more reading of the clock. *)
Definition tick (st : state) : state :=
  {| self_columns := self_columns st; db := db st; trace := trace st;
     requests := requests st; clock_reads := S (clock_reads st) |}.

(** The two ways a loader can end: it raises before anything is sent, or
    it reads the clock once and hands [load_item] a record whose
    [load_datetime] is that reading. *)
Definition hands_over (env : Env) (table : string) (st : state)
                      (r : outcome unit * state) : Prop :=
  (exists e, r = (Raise e, st)) \/
  (exists d,
      r = Database.load_item env
            (dict_set "load_datetime" (VTime (clock env (clock_reads st))) d)
            table (tick st)).

(** What the batch claim describes: every record cut down to the columns
    kept from the first one. *)
Definition rows_cut_to_first (columns : list string) (items : list dict)
  : list (list pyval) :=
  match items with
  | [] => []
  | first :: _ =>
      let cols := keys (recognised columns first) in
      (fun item => values (recognised cols item)) <$> items
  end.

(** What the lookup claim describes: the first row that matches the
    identifier and every secondary filter. *)
Definition first_match (env : Env) (d : database) (table : string)
                       (item_id : pyval) (secondary : option dict) : pyval :=
  match List.filter (selects env (Database.id_cond env item_id ++
                                  Database.secondary_conds env secondary))
                    (rows_of d table) with
  | row :: _ => VDict row
  | [] => VNone
  end.

(** ** Synthetic payloads and worlds *)

Definition pagination (count number : Z) (more : bool) : pyval :=
  VDict [("object_count", VInt count); ("page_number", VInt number);
         ("has_more_items", VBool more)].

Definition events_page (count number : Z) (more : bool) (events : list pyval)
  : pyval :=
  VDict [("pagination", pagination count number more);
         ("events", VList events)].

Definition attendees_page (number : Z) (more : bool) (attendees : list pyval)
  : pyval :=
  VDict [("pagination", pagination 2 number more);
         ("attendees", VList attendees)].

(** The service answers the request for page [k] of [N] with that page,
    whenever it is asked and whatever the date filters are. *)
Definition serves_pages (env : Env) (N : nat) (count : Z)
                        (events : nat -> list pyval) : Prop :=
  forall n rs ms k, (1 <= k <= N)%nat ->
    respond env n (GetEvents (EVENTBRITE_ORG env) rs ms (VInt (Z.of_nat k)))
    = (200, events_page count (Z.of_nat k) (k <? N)%nat (events k)).

(** Every event of every page is processed without a fault in any state
    that satisfies [I], and leaves a state that satisfies [I]. *)
Definition events_processed (env : Env) (N : nat) (events : nat -> list pyval)
                            (fuel_a : nat) (I : state -> Prop) : Prop :=
  forall k event st0, (1 <= k <= N)%nat -> In event (events k) -> I st0 ->
    exists st1,
      EventbriteLoader.run_event env fuel_a event st0 = (Ok tt, st1) /\ I st1.

(** [I] looks at the column cache and at the store only. *)
Definition blind (I : state -> Prop) : Prop :=
  forall st0 st1, self_columns st1 = self_columns st0 -> db st1 = db st0 ->
    I st0 -> I st1.

Definition page_request (env : Env) (rs : option string) (k : nat) : io :=
  Request (GetEvents (EVENTBRITE_ORG env) rs None (VInt (Z.of_nat k))).

Definition demo_event (id : string) (venue_id : pyval) : pyval :=
  VDict [("id", VStr id);
         ("name", VDict [("text", VStr "Purim party")]);
         ("description", VDict [("text", VStr "Bring a costume")]);
         ("start", VDict [("utc", VStr "2019-03-20T23:00:00Z")]);
         ("end", VDict [("utc", VStr "2019-03-21T02:00:00Z")]);
         ("venue_id", venue_id);
         ("capacity", VInt 120)].

Definition demo_attendee (id event_id : string) : pyval :=
  VDict [("id", VStr id); ("event_id", VStr event_id);
         ("profile", VDict [("name", VStr "Ann Lee"); ("email", VStr "ann@example.org")]);
         ("costs", VDict [("gross", VDict [("major_value", VStr "12.50")])])].

Definition demo_order : pyval :=
  VDict [("id", VStr "o1");
         ("costs", VDict [("gross", VDict [("major_value", VStr "12.50")])])].

Definition demo_venue : pyval :=
  VDict [("id", VStr "v1"); ("name", VStr "Main hall");
         ("address", VDict [("city", VStr "Fairfax"); ("region", VStr "VA")]);
         ("latitude", VStr "38.85"); ("longitude", VStr "-77.30")].

(** The events of the two pages of the synthetic service. *)
Definition demo_events (k : nat) : list pyval :=
  match k with
  | 1%nat => [demo_event "e1" VNone]
  | 2%nat => [demo_event "e2" (VStr "v1")]
  | _ => []
  end.

(** A service with two event pages; the event of the second page names a
    venue. Every event has one page of two attendees. *)
Definition demo_respond (n : nat) (r : request) : Z * pyval :=
  match r with
  | GetEvents _ _ _ (VInt 1) => (200, events_page 2 1 true (demo_events 1))
  | GetEvents _ _ _ (VInt 2) => (200, events_page 2 2 false (demo_events 2))
  | GetAttendees (VStr e) (VInt 1) =>
      (200, attendees_page 1 false [demo_attendee "a1" e; demo_attendee "a2" e])
  | GetVenue (VStr "v1") _ => (200, demo_venue)
  | _ => (404, VNone)
  end.

Definition demo_parse_float (s : string) : option Q :=
  if String.eqb s "12.50" then Some (25 # 2)%Q
  else if String.eqb s "38.85" then Some (777 # 20)%Q
  else if String.eqb s "-77.30" then Some (-773 # 10)%Q
  else None.

Definition demo_arrow_get (v : pyval) : option Z :=
  match v with
  | VStr "2019-03-20T23:00:00Z" => Some 1553122800000000
  | VStr "2019-03-21T02:00:00Z" => Some 1553133600000000
  | _ => None
  end.

Definition demo_env : Env := {|
  PG_SCHEMA := "trs";
  EVENTBRITE_ORG := VStr "1234567";
  respond := demo_respond;
  clock := fun n => 1553200000000000 + Z.of_nat n;
  local_offset := -14400000000;
  parse_float := demo_parse_float;
  arrow_get := demo_arrow_get;
  date_prefix := fun _ => "2019-03-20";
  repr := fun _ => "<object>";
  refuses := fun _ _ _ => false
|}.

(** The same service when every attendee request is refused. *)
Definition limited_respond (n : nat) (r : request) : Z * pyval :=
  match r with
  | GetEvents _ _ _ (VInt 1) =>
      (200, events_page 1 1 false [demo_event "e1" VNone])
  | _ => (429, VNone)
  end.

Definition limited_env : Env := {|
  PG_SCHEMA := "trs";
  EVENTBRITE_ORG := VStr "1234567";
  respond := limited_respond;
  clock := fun n => 1553200000000000 + Z.of_nat n;
  local_offset := -14400000000;
  parse_float := demo_parse_float;
  arrow_get := demo_arrow_get;
  date_prefix := fun _ => "2019-03-20";
  repr := fun _ => "<object>";
  refuses := fun _ _ _ => false
|}.

(** The two-page service when its second answer, the first to a request
    for attendees, is a refusal. *)
Definition flaky_respond (n : nat) (r : request) : Z * pyval :=
  match n with
  | 1%nat => (429, VNone)
  | _ => demo_respond n r
  end.

Definition flaky_env : Env := {|
  PG_SCHEMA := "trs";
  EVENTBRITE_ORG := VStr "1234567";
  respond := flaky_respond;
  clock := fun n => 1553200000000000 + Z.of_nat n;
  local_offset := -14400000000;
  parse_float := demo_parse_float;
  arrow_get := demo_arrow_get;
  date_prefix := fun _ => "2019-03-20";
  repr := fun _ => "<object>";
  refuses := fun _ _ _ => false
|}.

(** A service that reports no event at all. *)
Definition idle_env : Env := {|
  PG_SCHEMA := "trs";
  EVENTBRITE_ORG := VStr "1234567";
  respond := fun _ _ => (200, events_page 0 1 false []);
  clock := fun n => 1553200000000000 + Z.of_nat n;
  local_offset := -14400000000;
  parse_float := demo_parse_float;
  arrow_get := demo_arrow_get;
  date_prefix := fun _ => "2019-03-20";
  repr := fun _ => "<object>";
  refuses := fun _ _ _ => false
|}.

(** The two-page service over an engine that keeps the [id] of a table
    unique: it refuses a row whose [id] a row of the table already has. *)
Definition same_id (row row' : dict) : bool :=
  match dict_get "id" row, dict_get "id" row' with
  | Some (VStr x), Some (VStr y) => String.eqb x y
  | _, _ => false
  end.

Definition unique_env : Env := {|
  PG_SCHEMA := "trs";
  EVENTBRITE_ORG := VStr "1234567";
  respond := demo_respond;
  clock := fun n => 1553200000000000 + Z.of_nat n;
  local_offset := -14400000000;
  parse_float := demo_parse_float;
  arrow_get := demo_arrow_get;
  date_prefix := fun _ => "2019-03-20";
  repr := fun _ => "<object>";
  refuses := fun d t row => existsb (same_id row) (rows_of d t)
|}.

Definition demo_db : database := {|
  catalog :=
    {[ "events" := ["id"; "name"; "description"; "start_datetime";
                    "end_datetime"; "load_datetime"; "venue_id"];
       "attendees" := ["id"; "event_id"; "name"; "first_name"; "last_name";
                       "email"; "cost"; "load_datetime"];
       "orders" := ["id"; "cost"; "load_datetime"];
       "venues" := ["id"; "name"; "city"; "region"; "latitude"; "longitude";
                    "load_datetime"] ]};
  tables := ∅
|}.

Definition demo_state : state := {|
  self_columns := ∅; db := demo_db; trace := [];
  requests := 0; clock_reads := 0
|}.

(** A store that already holds one venue. *)
Definition venue_db : database := {|
  catalog := catalog demo_db;
  tables := {[ "venues" := [[("id", VStr "v1"); ("city", VStr "Fairfax")]] ]}
|}.

Definition venue_state : state := {|
  self_columns := ∅; db := venue_db; trace := [];
  requests := 0; clock_reads := 0
|}.


(** ** Vocabulary of the further properties *)

(** The same state over a store whose catalog has become [cat]. *)
Definition with_catalog (cat : gmap string (list string)) (st : state) : state :=
  {| self_columns := self_columns st;
     db := {| catalog := cat; tables := tables (db st) |};
     trace := trace st; requests := requests st;
     clock_reads := clock_reads st |}.

(** What a computation added to the trace of [st]. *)
Definition added (st st' : state) : list io :=
  drop (length (trace st)) (trace st').

(** A text without a quote: interpolated between quotes it stays inside
    them. *)
Fixpoint quote_free (s : string) : bool :=
  match s with
  | EmptyString => true
  | String c s' => negb (Ascii.eqb c "'") && quote_free s'
  end.

(** The rows of [d] in [table] that a lookup by [item_id] selects. *)
Definition rows_with_id (env : Env) (d : database) (table : string)
                        (item_id : pyval) : list dict :=
  List.filter (selects env (Database.id_cond env item_id)) (rows_of d table).


(** How a fetch wrapper treats the answer to its first request [r]: a 200
    with a body that is not empty is returned at once; any other status,
    or an empty body, is followed by the pause of 3600. *)
Definition fetch_rule (env : Env) (st : state) (r : request)
                      (result : outcome pyval * state) : Prop :=
  let answer := respond env (requests st) r in
  (answer.1 = 200 -> truthy answer.2 = true ->
   result = (Ok answer.2, sent r st)) /\
  (answer.1 <> 200 \/ truthy answer.2 = false ->
   take 2 (added st result.2) = [Request r; Sleep 3600]).


(** The parts of an event payload that [load_event] reads. *)
Definition event_shape (env : Env) (d : dict) (start end_ : Z)
                       (description name : pyval) : Prop :=
  exists s us e ue dd n,
    dict_get "start" d = Some s /\ subscript s "utc" = Ok us /\
    arrow_get env us = Some start /\
    dict_get "end" d = Some e /\ subscript e "utc" = Ok ue /\
    arrow_get env ue = Some end_ /\
    dict_get "description" d = Some dd /\ subscript dd "text" = Ok description /\
    dict_get "name" d = Some n /\ subscript n "text" = Ok name.

(** The record [load_event] builds from them and the clock reading [t]. *)
Definition event_record (d : dict) (start end_ : Z) (description name : pyval)
                        (t : Z) : dict :=
  dict_set "load_datetime" (VTime t)
    (dict_set "name" name
       (dict_set "description" description
          (dict_set "end_datetime" (VTime end_)
             (dict_set "start_datetime" (VTime start) d)))).

(** [if k in p: d[k] = p[k]] on dicts. *)
Definition copy_from (p : dict) (k : string) (d : dict) : dict :=
  match dict_get k p with
  | Some v => dict_set k v d
  | None => d
  end.

(** The parts of an attendee payload that [load_attendee] reads, and the
    record it builds. *)
Definition attendee_shape (env : Env) (d p : dict) (cost : pyval) : Prop :=
  dict_get "profile" d = Some (VDict p) /\
  exists costs gross value,
    dict_get "costs" d = Some costs /\ subscript costs "gross" = Ok gross /\
    subscript gross "major_value" = Ok value /\ float env value = Ok cost.

Definition attendee_record (d p : dict) (cost : pyval) (t : Z) : dict :=
  dict_set "load_datetime" (VTime t)
    (dict_set "cost" cost
       (copy_from p "email"
          (copy_from p "last_name"
             (copy_from p "first_name" (copy_from p "name" d))))).

(** The venue after the loop over its address [a]. *)
Definition flattened (a : dict) (d : dict) : dict :=
  foldl (fun acc k => match dict_get k a with
                      | Some v => dict_set k v acc
                      | None => acc
                      end) d (keys a).

Definition venue_shape (env : Env) (d a : dict) (latitude longitude : pyval)
  : Prop :=
  dict_get "address" d = Some (VDict a) /\ ("address" ∉ keys a) /\
  exists x y,
    dict_get "latitude" (flattened a d) = Some x /\ float env x = Ok latitude /\
    dict_get "longitude" (flattened a d) = Some y /\ float env y = Ok longitude.

Definition venue_record (d a : dict) (latitude longitude : pyval) : dict :=
  dict_set "longitude" longitude (dict_set "latitude" latitude (flattened a d)).


(** [m] stays within [ok]: whether it returns or raises, it only adds to
    the trace, and every entry it adds is accepted by [ok]. *)
Definition within {A : Type} (ok : io -> bool) (m : M A) : Prop :=
  forall st, exists d,
    trace (m st).2 = (trace st ++ d)%list /\ forallb ok d = true.

(** The calls a load is made of, as the code hands them to the client, to
    [time.sleep] and to the driver: requests, pauses of 60 or 3600, the
    DELETE template on events by [id] and on attendees by [id] and
    [event_id], the single-row INSERT template on the three tables the load
    writes, REFRESH of the three views, the SELECT templates for column
    names, for a venue by [id] and for the last load time, and commits;
    all in the schema of the environment. *)
Definition run_tables : list string := ["events"; "attendees"; "venues"].

Definition run_step (env : Env) (e : io) : bool :=
  match e with
  | Request _ => true
  | Sleep secs => bool_decide (secs = 60 \/ secs = 3600)
  | Execute (DeleteWhere s t conds) [] =>
      bool_decide (s = PG_SCHEMA env /\
                   (t = "events" /\ conds.*1 = ["id"] \/
                    t = "attendees" /\ conds.*1 = ["id"; "event_id"]))
  | Execute (InsertRow s t cols n) params =>
      bool_decide (s = PG_SCHEMA env /\ t ∈ run_tables /\
                   length cols = n /\ length params = n)
  | Execute (RefreshView s v) [] =>
      bool_decide (s = PG_SCHEMA env /\ v ∈ Database.MATERIALIZED_VIEWS)
  | ReadSql (SelectColumnNames s t) =>
      bool_decide (s = PG_SCHEMA env /\ t ∈ run_tables)
  | ReadSql (SelectWhere s t conds) =>
      bool_decide (s = PG_SCHEMA env /\ t = "venues" /\ conds.*1 = ["id"])
  | ReadSql (SelectMaxLoad s) => bool_decide (s = PG_SCHEMA env)
  | Commit => true
  | _ => false
  end.

(** * Properties *)

(** ** Dictionaries *)

Lemma filter_all {A : Type} (P : A -> Prop) `{!forall x, Decision (P x)} (l : list A) :
  (forall x, x ∈ l -> P x) -> filter P l = l.
Proof.
  induction l as [|a l IH]; intros Hall; [done|].
  rewrite filter_cons_True by (apply Hall; left).
  f_equal. apply IH. intros x Hx. apply Hall. by right.
Qed.

Lemma filter_agree {A : Type} (P Q : A -> Prop)
      `{!forall x, Decision (P x)} `{!forall x, Decision (Q x)} (l : list A) :
  (forall x, x ∈ l -> P x <-> Q x) -> filter P l = filter Q l.
Proof.
  induction l as [|a l IH]; intros Hall; [done|].
  assert (Ha : P a <-> Q a) by (apply Hall; left).
  assert (Hl : filter P l = filter Q l).
  { apply IH. intros x Hx. apply Hall. by right. }
  destruct (decide (P a)) as [HP|HP].
  - rewrite !filter_cons_True by tauto. by rewrite Hl.
  - rewrite !filter_cons_False by tauto. done.
Qed.

Lemma fold_deletes (columns : list string) (ks : list string) (acc : dict) :
  foldl (fun item_ key =>
           if bool_decide (key ∈ columns) then item_ else dict_del key item_)
        acc ks
  = filter (fun kv => kv.1 ∈ columns \/ kv.1 ∉ ks) acc.
Proof.
  revert acc. induction ks as [|k ks IH]; intros acc; simpl.
  - symmetry. apply filter_all. intros x _. right. apply not_elem_of_nil.
  - rewrite IH. case_bool_decide as Hk.
    + apply filter_agree. intros [k' v] _. simpl.
      rewrite not_elem_of_cons. destruct (decide (k' = k)); [subst|]; tauto.
    + unfold dict_del. rewrite list_filter_filter.
      apply filter_agree. intros [k' v] _. simpl.
      rewrite not_elem_of_cons. destruct (decide (k' = k)); [subst|]; tauto.
Qed.

Lemma valid_fields_recognised (columns : list string) (item : dict) :
  Database.valid_fields columns item = recognised columns item.
Proof.
  unfold Database.valid_fields, recognised, deepcopy. rewrite fold_deletes.
  apply filter_agree. intros [k v] Hin. simpl. split; [|by left].
  intros [H|H]; [done|]. exfalso. apply H. unfold keys.
  apply list_elem_of_fmap. by exists (k, v).
Qed.

Lemma dict_get_recognised (columns : list string) (k : string) (d : dict) :
  dict_get k (recognised columns d)
  = if bool_decide (k ∈ columns) then dict_get k d else None.
Proof.
  unfold recognised. induction d as [|[k' v] d IH]; simpl.
  - by case_bool_decide.
  - destruct (decide (k' ∈ columns)) as [Hin|Hin].
    + rewrite filter_cons_True by done. simpl.
      destruct (String.eqb_spec k k') as [->|Hne].
      * by rewrite bool_decide_eq_true_2.
      * apply IH.
    + rewrite filter_cons_False by done. rewrite IH.
      destruct (String.eqb_spec k k') as [->|Hne]; [|done].
      by rewrite bool_decide_eq_false_2.
Qed.

Lemma dict_get_key (k : string) (d : dict) :
  k ∈ keys d -> is_Some (dict_get k d).
Proof.
  unfold keys. induction d as [|[k' v] d IH]; simpl; intros H.
  - by apply elem_of_nil in H.
  - destruct (String.eqb_spec k k'); [by eexists|].
    apply IH. apply elem_of_cons in H as [H|H]; [done|exact H].
Qed.

Lemma omap_agree {A B : Type} (f g : A -> option B) (l : list A) :
  (forall x, x ∈ l -> f x = g x) -> omap f l = omap g l.
Proof.
  induction l as [|a l IH]; intros H; [done|]. csimpl.
  rewrite (H a) by left. rewrite IH; [done|].
  intros x Hx. apply H. by right.
Qed.

Lemma length_omap_some {A B : Type} (f : A -> option B) (l : list A) :
  (forall x, x ∈ l -> is_Some (f x)) -> length (omap f l) = length l.
Proof.
  induction l as [|a l IH]; intros H; [done|]. csimpl.
  destruct (H a) as [b Hb]; [left|]. rewrite Hb. simpl. f_equal.
  apply IH. intros x Hx. apply H. by right.
Qed.

Lemma length_bound_values (d : dict) :
  length (Database.bound_values d) = length d.
Proof.
  unfold Database.bound_values.
  rewrite length_omap_some by (intros x Hx; by apply dict_get_key).
  unfold keys. by rewrite length_fmap.
Qed.

Lemma bound_values_values (d : dict) :
  NoDup (keys d) -> Database.bound_values d = values d.
Proof.
  unfold Database.bound_values, keys, values.
  induction d as [|[k v] d IH]; intros Hnd; [done|].
  csimpl in *. apply NoDup_cons in Hnd as [Hk Hnd].
  rewrite String.eqb_refl. simpl. f_equal.
  rewrite <- IH by done. apply omap_agree. intros x Hx. simpl.
  destruct (String.eqb_spec x k) as [->|]; [done|done].
Qed.

Lemma NoDup_keys_recognised (columns : list string) (d : dict) :
  NoDup (keys d) -> NoDup (keys (recognised columns d)).
Proof.
  unfold keys, recognised. intros H.
  eapply sublist_NoDup; [exact H|].
  apply fmap_sublist, sublist_filter.
Qed.

(** ** The gateway, statement by statement *)

Lemma omap_column_names (l : list string) :
  omap (fun row : dict => match dict_get "column_name" row with
                          | Some (VStr x) => Some x
                          | _ => None
                          end)
       ((fun c => [("column_name", VStr c)]) <$> l) = l.
Proof. induction l as [|c l IH]; [done|]. csimpl. by rewrite IH. Qed.

Lemma get_columns_eval (env : Env) (table : string) (st : state) :
  Database.get_columns env table st
  = (Ok (remove_dups (default [] (catalog (db st) !! table))),
     {| self_columns := self_columns st; db := db st;
        trace := trace st ++ [ReadSql (SelectColumnNames (PG_SCHEMA env) table)];
        requests := requests st; clock_reads := clock_reads st |}).
Proof.
  unfold Database.get_columns, read_sql, bind, emit, get_state, lift, ret.
  simpl. by rewrite omap_column_names.
Qed.

Lemma table_columns_eval (env : Env) (table : string) (st : state) :
  Database.table_columns env table st
  = (Ok (known_columns st table), after_lookup env st table).
Proof.
  unfold Database.table_columns, after_lookup, known_columns, cache_after,
    lookup_io, bind at 1, get_state.
  destruct (self_columns st !! table) as [columns|] eqn:Hc.
  - unfold ret. rewrite app_nil_r. by destruct st.
  - unfold bind at 1. rewrite get_columns_eval.
    unfold bind, set_columns, ret, known_columns. simpl. by rewrite Hc.
Qed.

(** *** Binding and acceptance *)

Lemma bind_each_None (n : nat) (args : list pyval) :
  bind_each n args = None <-> length args = n /\ forallb adaptable args = true.
Proof.
  revert args. induction n as [|n IH]; intros [|v args]; simpl;
    try (split; [discriminate|intros [? ?]; discriminate]); [done|].
  destruct (adaptable v); simpl.
  - rewrite IH. split; intros [? ?]; split; congruence.
  - split; [discriminate|intros [_ ?]; discriminate].
Qed.

Lemma mogrify_None (n : nat) (args : list pyval) :
  mogrify n args = None
  <-> n = O \/ (length args = n /\ forallb adaptable args = true).
Proof.
  destruct n as [|n]; [by split; [left|]|].
  change (mogrify (S n) args) with (bind_each (S n) args).
  rewrite bind_each_None. split; [by right|]. by intros [?|?].
Qed.

Lemma mogrify_fits (args : list pyval) :
  mogrify (length args) args
  = if forallb adaptable args then None else Some DatabaseError.
Proof.
  destruct (forallb adaptable args) eqn:Ha.
  - apply mogrify_None. by right.
  - destruct args as [|v args]; [discriminate|].
    change (bind_each (length (v :: args)) (v :: args) = Some DatabaseError).
    clear -Ha. revert Ha. generalize (v :: args). clear.
    intros l. induction l as [|x l IH]; simpl; [discriminate|].
    destruct (adaptable x); simpl; [exact IH|done].
Qed.

(** For a record with distinct keys the verdict on its INSERT is
    [insert_accepted]. *)
Lemma insert_error_record (env : Env) (d : database) (t : string) (row : dict) :
  insert_error env d t (keys row) (length row) (values row)
  = if insert_accepted env d t row then None else Some DatabaseError.
Proof.
  unfold insert_error, insert_accepted.
  assert (Hl : length row = length (values row))
    by (unfold values; by rewrite length_fmap).
  rewrite Hl at 1. rewrite mogrify_fits.
  rewrite bool_decide_eq_true_2 by (unfold keys; by rewrite length_fmap).
  destruct (forallb adaptable (values row)); simpl; [|done].
  by destruct (engine_accepts _ _ _ _ _).
Qed.

Lemma insert_error_empty (env : Env) (d : database) (t : string) :
  insert_error env d t [] 0 [] = Some DatabaseError.
Proof.
  reflexivity.
Qed.

Lemma insert_accepted_field (env : Env) (d : database) (t : string) (row : dict) :
  insert_accepted env d t row = true -> row <> [].
Proof.
  intros H ->. discriminate H.
Qed.

(** An engine that refuses nothing takes the recognised fields of a
    record, when there is one, for a table whose columns are those of the
    catalog. *)
Lemma engine_accepts_recognised (env : Env) (d : database) (t : string)
      (item : dict) :
  (forall d' t' row, refuses env d' t' row = false) ->
  NoDup (keys item) ->
  let kept := recognised (remove_dups (columns_of d t)) item in
  kept <> [] ->
  engine_accepts env d t (keys kept) (values kept) = true.
Proof.
  intros Href Hnd kept Hne. unfold engine_accepts.
  rewrite Href. rewrite andb_true_r. apply bool_decide_eq_true_2.
  split; [by destruct kept|].
  split; [by apply NoDup_keys_recognised|].
  split; [unfold keys, values; by rewrite !length_fmap|].
  intros k Hk. unfold keys in Hk. apply list_elem_of_fmap in Hk as ([k' v] & -> & Hkv).
  unfold kept, recognised in Hkv. apply list_elem_of_filter in Hkv as [Hc _].
  exact (proj1 (elem_of_remove_dups _ _) Hc).
Qed.

(** *** [load_item] and [load_items], step by step *)

Lemma load_item_eval (env : Env) (item : dict) (table : string) (st : state) :
  let st1 := after_lookup env st table in
  let kept := recognised (known_columns st table) item in
  let e := Execute (InsertRow (PG_SCHEMA env) table (keys kept) (length kept))
                   (Database.bound_values kept) in
  Database.load_item env item table st =
    match insert_error env (db st) table (keys kept) (length kept)
                       (Database.bound_values kept) with
    | Some ex =>
        (Raise ex,
         {| self_columns := self_columns st1; db := db st;
            trace := trace st1 ++ [e];
            requests := requests st; clock_reads := clock_reads st |})
    | None =>
        (Ok tt,
         {| self_columns := self_columns st1;
            db := with_rows (db st) table
                    (rows_of (db st) table
                     ++ [zip (keys kept) (Database.bound_values kept)]);
            trace := (trace st1 ++ [e]) ++ [Commit];
            requests := requests st; clock_reads := clock_reads st |})
    end.
Proof.
  intros st1 kept e. unfold Database.load_item, bind at 1.
  rewrite table_columns_eval, valid_fields_recognised. fold kept.
  unfold cursor_execute, commit, bind, emit, get_state, lift, set_db,
    db_execute. simpl.
  by destruct (insert_error _ _ _ _ _ _).
Qed.

(** The same for a record with distinct keys: the row is the recognised
    fields, and the verdict is [insert_accepted]. *)
Lemma load_item_outcome (env : Env) (item : dict) (table : string) (st : state) :
  NoDup (keys item) ->
  let kept := recognised (known_columns st table) item in
  let e := Execute (InsertRow (PG_SCHEMA env) table (keys kept) (length kept))
                   (values kept) in
  Database.load_item env item table st =
    if insert_accepted env (db st) table kept
    then (Ok tt,
          {| self_columns := cache_after st table;
             db := with_rows (db st) table (rows_of (db st) table ++ [kept]);
             trace := (trace st ++ lookup_io env st table ++ [e; Commit])%list;
             requests := requests st; clock_reads := clock_reads st |})
    else (Raise DatabaseError,
          {| self_columns := cache_after st table; db := db st;
             trace := (trace st ++ lookup_io env st table ++ [e])%list;
             requests := requests st; clock_reads := clock_reads st |}).
Proof.
  intros Hnd kept e. rewrite load_item_eval. fold kept.
  assert (Hk : NoDup (keys kept)) by by apply NoDup_keys_recognised.
  rewrite bound_values_values by done. rewrite insert_error_record.
  unfold after_lookup. cbn [self_columns trace].
  destruct (insert_accepted env (db st) table kept).
  - rewrite <- !app_assoc. do 3 f_equal. unfold keys, values. by rewrite zip_fst_snd.
  - by rewrite <- !app_assoc.
Qed.

Lemma load_items_eval (env : Env) (first : dict) (rest : list dict)
      (table : string) (st : state) :
  let st1 := after_lookup env st table in
  let columns := known_columns st table in
  let cols := keys (recognised columns first) in
  let rows := (fun item => Database.bound_values (recognised columns item))
              <$> (first :: rest) in
  let sql := InsertRows (PG_SCHEMA env) table cols in
  Database.load_items env (first :: rest) table st =
    match db_execute_values env sql rows (db st) with
    | Ok d' =>
        (Ok tt,
         {| self_columns := self_columns st1; db := d';
            trace := (trace st1 ++ [ExecuteValues sql rows]) ++ [Commit];
            requests := requests st; clock_reads := clock_reads st |})
    | Raise ex =>
        (Raise ex,
         {| self_columns := self_columns st1; db := db st;
            trace := trace st1 ++ [ExecuteValues sql rows];
            requests := requests st; clock_reads := clock_reads st |})
    | OutOfFuel =>
        (OutOfFuel,
         {| self_columns := self_columns st1; db := db st;
            trace := trace st1 ++ [ExecuteValues sql rows];
            requests := requests st; clock_reads := clock_reads st |})
    end.
Proof.
  intros st1 columns cols rows sql. unfold Database.load_items, bind at 1.
  rewrite table_columns_eval.
  assert (Hrows : (fun item => Database.bound_values
                                 (Database.valid_fields columns item))
                  <$> (first :: rest) = rows).
  { unfold rows. apply list_fmap_ext. intros _ item _.
    by rewrite valid_fields_recognised. }
  fold columns. rewrite Hrows, valid_fields_recognised. fold cols sql.
  unfold execute_values, commit, bind, emit, get_state, lift, set_db.
  cbn [fst snd db after_lookup trace self_columns requests clock_reads].
  by destruct (db_execute_values env sql rows (db st)).
Qed.

Lemma parens_placeholders (n : nat) :
  n <> O -> parens (replicate n "%s") <> "()".
Proof.
  destruct n as [|n]; [done|]. intros _. unfold parens. simpl.
  destruct (replicate n "%s"); simpl; discriminate.
Qed.

Lemma append_self_neq (s t : string) : t <> "" -> s <> s ++ t.
Proof.
  intros Ht Heq. induction s as [|c s IH]; simpl in Heq.
  - by subst.
  - injection Heq as Heq. by apply IH.
Qed.

Lemma rows_of_with_rows (env : Env) (d : database) (t : string) (rows : list dict) :
  rows_of (with_rows d t rows) t = rows.
Proof. unfold rows_of, with_rows. simpl. by rewrite lookup_insert_eq. Qed.

(** C1, as stated, fails: not every record is persisted. A record none of
    whose fields is a column makes [load_item] build an INSERT with empty
    lists, which raises; so does a recognised field whose value is a dict,
    which the driver cannot bind, and a row the engine refuses, here a
    second row with the same [id] under a unique index. In each case
    nothing is stored and nothing is committed. *)
Lemma load_item_does_not_persist_every_record :
  let unrecognised := Database.load_item demo_env [("capacity", VInt 120)]
                                         "events" demo_state in
  let unbound := Database.load_item demo_env
                   [("id", VStr "e1"); ("name", VDict [("text", VStr "Purim")])]
                   "events" demo_state in
  let once := Database.load_item unique_env [("id", VStr "e1")] "events"
                                 demo_state in
  let twice := Database.load_item unique_env [("id", VStr "e1")] "events"
                                  once.2 in
  (unrecognised.1 = Raise DatabaseError /\
   trace unrecognised.2
   = [ReadSql (SelectColumnNames "trs" "events");
      Execute (InsertRow "trs" "events" [] 0) []] /\
   db unrecognised.2 = demo_db) /\
  (unbound.1 = Raise DatabaseError /\
   trace unbound.2
   = [ReadSql (SelectColumnNames "trs" "events");
      Execute (InsertRow "trs" "events" ["id"; "name"] 2)
              [VStr "e1"; VDict [("text", VStr "Purim")]]] /\
   db unbound.2 = demo_db) /\
  (once.1 = Ok tt /\ twice.1 = Raise DatabaseError /\
   rows_of (db twice.2) "events" = [[("id", VStr "e1")]] /\
   trace twice.2
   = (trace once.2
      ++ [Execute (InsertRow "trs" "events" ["id"] 1) [VStr "e1"]])%list).
Proof. vm_compute. repeat split. Qed.

(** C1, amended. The INSERT of [load_item] names and binds exactly the
    fields of the record whose names are columns of the table, each with
    the value the record gives it, so no other field reaches the engine.
    When the driver can bind those values and the engine takes the row
    (which needs at least one such field), the row is stored and committed
    and the call returns; otherwise the call raises a database error after
    the INSERT, and nothing is stored or committed. *)
Theorem load_item_column_intersection
        (env : Env) (item : dict) (table : string) (st : state) :
  NoDup (keys item) ->
  let columns := known_columns st table in
  let kept := recognised columns item in
  let result := Database.load_item env item table st in
  let insert := Execute (InsertRow (PG_SCHEMA env) table (keys kept) (length kept))
                        (values kept) in
  (forall k, dict_get k kept
             = if bool_decide (k ∈ columns) then dict_get k item else None) /\
  (insert_accepted env (db st) table kept = true ->
   result.1 = Ok tt /\
   trace result.2 = (trace st ++ lookup_io env st table ++ [insert; Commit])%list /\
   rows_of (db result.2) table = (rows_of (db st) table ++ [kept])%list) /\
  (insert_accepted env (db st) table kept = false ->
   result.1 = Raise DatabaseError /\
   trace result.2 = (trace st ++ lookup_io env st table ++ [insert])%list /\
   db result.2 = db st).
Proof.
  intros Hnd columns kept result insert.
  split; [intros k; apply dict_get_recognised|].
  unfold result. rewrite load_item_outcome by done. fold columns kept insert.
  split; intros ->; cbn [fst snd trace db]; repeat split.
  apply (rows_of_with_rows env).
Qed.

Lemma load_item_column_intersection_witness :
  NoDup (keys [("id", VStr "e1"); ("capacity", VInt 120); ("name", VStr "Purim")]) /\
  insert_accepted demo_env demo_db "events"
    (recognised (known_columns demo_state "events")
       [("id", VStr "e1"); ("capacity", VInt 120); ("name", VStr "Purim")])
  = true /\
  rows_of (db (Database.load_item demo_env
                 [("id", VStr "e1"); ("capacity", VInt 120); ("name", VStr "Purim")]
                 "events" demo_state).2) "events"
  = [[("id", VStr "e1"); ("name", VStr "Purim")]].
Proof.
  assert (Hnd : NoDup (keys [("id", VStr "e1"); ("capacity", VInt 120);
                             ("name", VStr "Purim")])).
  { refine (bool_decide_unpack _ _). vm_compute. exact I. }
  assert (Hacc : insert_accepted demo_env demo_db "events"
                   (recognised (known_columns demo_state "events")
                      [("id", VStr "e1"); ("capacity", VInt 120);
                       ("name", VStr "Purim")]) = true)
    by (vm_compute; reflexivity).
  split; [exact Hnd|]. split; [exact Hacc|].
  destruct (load_item_column_intersection demo_env _ "events" demo_state Hnd)
    as (_ & Hrow & _).
  destruct (Hrow Hacc) as (_ & _ & Hrows).
  rewrite Hrows. vm_compute. reflexivity.
Defined.

(** C10. The INSERT that [load_item] builds has one column and one
    placeholder per recognised field. With no recognised field the column
    list and the placeholder row are both [()], nothing is bound and the
    engine rejects the statement. With at least one, neither list is
    empty; whether the statement is then taken is the driver's and the
    engine's verdict on the values, and it is committed exactly when it
    is. *)
Theorem load_item_statement_well_formed
        (env : Env) (item : dict) (table : string) (st : state) :
  let kept := recognised (known_columns st table) item in
  let result := Database.load_item env item table st in
  exists cols n params rest,
    trace result.2
    = (trace st ++ lookup_io env st table
       ++ Execute (InsertRow (PG_SCHEMA env) table cols n) params :: rest)%list /\
    cols = keys kept /\ n = length kept /\ length params = n /\
    (kept = [] ->
     cols = [] /\ params = [] /\
     parens cols = "()" /\ parens (replicate n "%s") = "()" /\
     result.1 = Raise DatabaseError /\ rest = [] /\ db result.2 = db st) /\
    (kept <> [] ->
     cols <> [] /\ params <> [] /\ n <> O /\
     parens (replicate n "%s") <> "()" /\
     ((result.1 = Ok tt /\ rest = [Commit]) \/
      ((exists e, result.1 = Raise e) /\ rest = [] /\ db result.2 = db st))).
Proof.
  intros kept result. unfold result. rewrite load_item_eval. fold kept.
  destruct kept as [|kv kept'] eqn:Hkept.
  - exists [], O, [], []. cbn [keys values fmap list_fmap length
                               Database.bound_values omap list_omap].
    rewrite insert_error_empty. simpl. rewrite <- app_assoc.
    repeat split; done.
  - exists (keys (kv :: kept')), (length (kv :: kept')),
      (Database.bound_values (kv :: kept')).
    destruct (insert_error _ _ _ _ _ _) as [ex|];
      [exists []|exists [Commit]]; simpl trace; rewrite <- ?app_assoc;
      (split; [done|]); (split; [done|]); (split; [done|]);
      (split; [apply length_bound_values|]);
      (split; [done|]); intros _; (split; [done|]);
      (split; [intros Hp; pose proof (length_bound_values (kv :: kept')) as Hl;
               rewrite Hp in Hl; discriminate|]);
      (split; [done|]); (split; [by apply parens_placeholders|]).
    + right. split; [by exists ex|done].
    + by left.
Qed.

(** C6. [revert_table] runs one text, which drops [table] and then
    creates it from [SELECT * FROM] the same [table], not from
    [table_backup]: by then the table is gone, so the text raises, nothing
    is committed, and the table is neither reverted nor recreated. *)
Theorem revert_table_selects_from_itself
        (env : Env) (table : string) (st : state) :
  let result := Database.revert_table env table st in
  let sql := CreateTableAs (PG_SCHEMA env) table table in
  result.1 = Raise DatabaseError /\
  trace result.2 = (trace st ++ [Execute sql []])%list /\
  db result.2 = db st /\
  sql <> CreateTableAs (PG_SCHEMA env) table (table ++ "_backup") /\
  render sql
  = nl ++ pad 12 ++ "DROP TABLE IF EXISTS " ++ PG_SCHEMA env ++ "." ++ table ++ ";" ++
    nl ++ pad 12 ++ "CREATE TABLE " ++ PG_SCHEMA env ++ "." ++ table ++
    nl ++ pad 12 ++ "AS SELECT *" ++
    nl ++ pad 12 ++ "FROM " ++ PG_SCHEMA env ++ "." ++ table ++
    nl ++ pad 8.
Proof.
  intros result sql.
  assert (Hx : db_execute env sql [] (db st) = Raise DatabaseError).
  { unfold sql, db_execute. destruct (catalog (db st) !! table); [|done].
    by rewrite bool_decide_eq_true_2. }
  unfold result, Database.revert_table, Database.run_query, cursor_execute,
    bind, emit, get_state, lift. cbn [fst snd db trace]. fold sql. rewrite Hx.
  repeat split.
  unfold sql. intros Heq. injection Heq as Heq.
  by apply append_self_neq in Heq.
Qed.

(** [backup_table], next to it, reads [table] and writes [table_backup]:
    on a table that exists the text is executed and committed, and the
    backup has the rows of the table. *)
Lemma backup_table_copies (env : Env) (table : string) (st : state) :
  is_Some (catalog (db st) !! table) ->
  let result := Database.backup_table env table st in
  result.1 = Ok tt /\
  trace result.2
  = (trace st ++ [Execute (CreateTableAs (PG_SCHEMA env) (table ++ "_backup") table) [];
                  Commit])%list /\
  rows_of (db result.2) (table ++ "_backup") = rows_of (db st) table /\
  rows_of (db result.2) table = rows_of (db st) table.
Proof.
  intros [columns Hc] result.
  assert (Hne : table ++ "_backup" <> table).
  { intros Heq. symmetry in Heq. by apply append_self_neq in Heq. }
  unfold result, Database.backup_table, Database.run_query, cursor_execute,
    commit, bind, emit, get_state, lift, set_db, db_execute.
  cbn [fst snd db trace]. rewrite Hc, bool_decide_eq_false_2 by done.
  cbn [fst snd db trace]. rewrite <- app_assoc.
  repeat split; unfold rows_of; cbn [tables].
  - by rewrite lookup_insert_eq.
  - by rewrite lookup_insert_ne.
Qed.

(** [get_item] runs its query before the secondary filters are appended,
    so its result does not depend on them. *)
Lemma get_item_secondary_unused
      (env : Env) (table : string) (item_id : pyval)
      (secondary : option dict) (st : state) :
  Database.get_item env table item_id secondary st
  = Database.get_item env table item_id None st.
Proof. reflexivity. Qed.

(** C5. [get_item] with a secondary filter that the only row with the
    identifier does not satisfy: the row that matches the identifier and
    the filter is absent, and [get_item] returns the row all the same. *)
Theorem get_item_ignores_secondary_filter :
  let secondary := Some [("city", VStr "Reston")] in
  first_match demo_env venue_db "venues" (VStr "v1") secondary = VNone /\
  (Database.get_item demo_env "venues" (VStr "v1") secondary venue_state).1
  = Ok (VDict [("id", VStr "v1"); ("city", VStr "Fairfax")]) /\
  trace (Database.get_item demo_env "venues" (VStr "v1") secondary venue_state).2
  = [ReadSql (SelectWhere "trs" "venues" [("id", "v1")])] /\
  Database.get_item_sql demo_env "venues" (VStr "v1") secondary
  = SelectWhere "trs" "venues" [("id", "v1"); ("city", "Reston")].
Proof. vm_compute. repeat split. Qed.

(** Without a secondary filter [get_item] is the first row with the
    identifier, or [None]. *)
Lemma get_item_by_id (env : Env) (table : string) (item_id : pyval) (st : state) :
  (Database.get_item env table item_id None st).1
  = Ok (first_match env (db st) table item_id None).
Proof.
  unfold Database.get_item, first_match, read_sql, bind, emit, get_state,
    lift, ret, db_query. simpl.
  by destruct (List.filter _ _).
Qed.

(** *** Batches *)

Lemma omap_mogrify_nil (n : nat) (rows : list (list pyval)) :
  omap (mogrify n) rows = [] <-> Forall (fun r => mogrify n r = None) rows.
Proof.
  induction rows as [|r rows IH]; csimpl.
  - split; [intros _; apply Forall_nil_2|done].
  - destruct (mogrify n r) as [e|] eqn:Hm; csimpl.
    + split; [discriminate|]. intros H. apply Forall_cons in H as [H _].
      congruence.
    + rewrite IH, Forall_cons. tauto.
Qed.

Lemma engine_accepts_columns (env : Env) (d : database) (t : string)
      (cols : list string) (row : list pyval) :
  engine_accepts env d t cols row = true ->
  cols <> [] /\ length row = length cols.
Proof.
  unfold engine_accepts. intros Hacc. apply andb_true_iff in Hacc as [Hacc _].
  apply bool_decide_eq_true_1 in Hacc. tauto.
Qed.

Lemma insert_all_rows (env : Env) (t : string) (cols : list string)
      (rows : list (list pyval)) (d d' : database) :
  insert_all env d t cols rows = Some d' ->
  Forall (fun r => length r = length cols) rows /\
  (rows <> [] -> cols <> []) /\
  rows_of d' t = (rows_of d t ++ (zip cols <$> rows))%list.
Proof.
  revert d. induction rows as [|r rows IH]; intros d; simpl.
  - intros [= <-]. split; [apply Forall_nil_2|]. split; [done|].
    by rewrite app_nil_r.
  - destruct (engine_accepts env d t cols r) eqn:Hacc; [|discriminate].
    apply engine_accepts_columns in Hacc as [Hne Hw].
    intros Hall. apply IH in Hall as (Hws & _ & Hrows).
    split; [by apply Forall_cons|]. split; [done|].
    rewrite Hrows, (rows_of_with_rows env). csimpl. by rewrite <- app_assoc.
Qed.

Lemma batch_accepted_spec (env : Env) (d : database) (t : string)
      (cols : list string) (rows : list (list pyval)) :
  batch_accepted env d t cols rows = true
  <-> Forall (fun r => length r = length cols /\ forallb adaptable r = true) rows /\
      is_Some (insert_all env d t cols rows).
Proof.
  unfold batch_accepted. rewrite !andb_true_iff, bool_decide_eq_true.
  rewrite !forallb_forall, Forall_forall.
  split.
  - intros [[Hw Ha] Hs]. split; [|done]. intros r Hr.
    apply list_elem_of_In in Hr. split; [|by apply Ha].
    apply Nat.eqb_eq. by apply Hw.
  - intros [H Hs]. split; [split|done]; intros r Hr;
      apply list_elem_of_In in Hr; destruct (H r Hr) as [Hw Ha]; [|done].
    by apply Nat.eqb_eq.
Qed.

(** The verdict of [execute_values] on a batch that is not empty. *)
Lemma db_execute_values_outcome (env : Env) (schema t : string)
      (cols : list string) (r0 : list pyval) (rs : list (list pyval))
      (d : database) :
  match db_execute_values env (InsertRows schema t cols) (r0 :: rs) d with
  | Ok d' => batch_accepted env d t cols (r0 :: rs) = true /\
             insert_all env d t cols (r0 :: rs) = Some d'
  | Raise _ => batch_accepted env d t cols (r0 :: rs) = false
  | OutOfFuel => False
  end.
Proof.
  unfold db_execute_values.
  destruct (omap (mogrify (length r0)) (r0 :: rs)) as [|e es] eqn:Hm.
  - apply omap_mogrify_nil in Hm.
    destruct (insert_all env d t cols (r0 :: rs)) as [d'|] eqn:Hall.
    + split; [|done]. apply batch_accepted_spec. split; [|by rewrite Hall].
      destruct (insert_all_rows _ _ _ _ _ _ Hall) as (Hw & Hne & _).
      rewrite Forall_forall in Hm, Hw. apply Forall_forall. intros r Hr.
      split; [by apply Hw|].
      destruct (proj1 (mogrify_None _ _) (Hm r Hr)) as [Hz|[_ Ha]]; [|done].
      exfalso. apply Hne; [done|].
      pose proof (Hw r0 ltac:(left)) as Hw0. rewrite Hz in Hw0.
      by destruct cols.
    + apply not_true_is_false. intros Hacc.
      apply batch_accepted_spec in Hacc as [_ [d' Hs]]. congruence.
  - apply not_true_is_false. intros Hacc.
    apply batch_accepted_spec in Hacc as [Hf _].
    assert (Hnil : omap (mogrify (length r0)) (r0 :: rs) = []); [|congruence].
    apply omap_mogrify_nil. rewrite Forall_forall in Hf. apply Forall_forall.
    intros r Hr. destruct (Hf r Hr) as [Hw Ha]. apply mogrify_None. right.
    split; [|done]. destruct (Hf r0 ltac:(left)) as [Hw0 _]. congruence.
Qed.

(** C4, as stated, fails: in a batch whose second record has a column the
    first lacks, the value of that column stays in the second tuple. The
    column list comes from the first record, the tuple does not fit the row
    template the driver builds from the first tuple, the call raises and
    nothing is stored or committed. Nor is every other batch inserted: one
    whose first record has no recognised field, one with a value the
    driver cannot bind, and one whose second row the engine refuses (the
    same [id] under a unique index) raise as well, uncommitted. *)
Lemma load_items_keeps_later_columns :
  let items := [[("id", VStr "o1")]; [("id", VStr "o2"); ("cost", VInt 5)]] in
  let result := Database.load_items demo_env items "orders" demo_state in
  let unrecognised :=
    Database.load_items demo_env [[("note", VStr "paid")]; [("note", VStr "due")]]
                        "orders" demo_state in
  let unbound :=
    Database.load_items demo_env [[("id", VDict [("n", VInt 1)])]]
                        "orders" demo_state in
  let twice :=
    Database.load_items unique_env [[("id", VStr "o1")]; [("id", VStr "o1")]]
                        "orders" demo_state in
  (trace result.2
   = [ReadSql (SelectColumnNames "trs" "orders");
      ExecuteValues (InsertRows "trs" "orders" ["id"])
                    [[VStr "o1"]; [VStr "o2"; VInt 5]]] /\
   rows_cut_to_first (known_columns demo_state "orders") items
   = [[VStr "o1"]; [VStr "o2"]] /\
   result.1 = Raise TypeError /\ db result.2 = demo_db) /\
  (trace unrecognised.2
   = [ReadSql (SelectColumnNames "trs" "orders");
      ExecuteValues (InsertRows "trs" "orders" []) [[]; []]] /\
   unrecognised.1 = Raise DatabaseError /\ db unrecognised.2 = demo_db) /\
  (trace unbound.2
   = [ReadSql (SelectColumnNames "trs" "orders");
      ExecuteValues (InsertRows "trs" "orders" ["id"]) [[VDict [("n", VInt 1)]]]] /\
   unbound.1 = Raise DatabaseError /\ db unbound.2 = demo_db) /\
  (trace twice.2
   = [ReadSql (SelectColumnNames "trs" "orders");
      ExecuteValues (InsertRows "trs" "orders" ["id"]) [[VStr "o1"]; [VStr "o1"]]] /\
   twice.1 = Raise DatabaseError /\ db twice.2 = demo_db).
Proof. vm_compute. repeat split. Qed.

(** C4, amended. For a batch [first :: rest], the column list of the one
    multi-row statement is made of the recognised fields of [first] alone,
    while the tuple of every record holds the values of that record's own
    recognised fields, in the record's order. The batch is handed to one
    [execute_values] call. When every tuple is as wide as the column list,
    the driver can bind every value and the engine takes every row (which
    needs a recognised field in [first]), the rows are stored and the batch
    is committed once; otherwise the call raises and nothing is stored or
    committed. *)
Theorem load_items_columns_from_first
        (env : Env) (first : dict) (rest : list dict) (table : string)
        (st : state) :
  Forall (fun item => NoDup (keys item)) (first :: rest) ->
  let items := first :: rest in
  let columns := known_columns st table in
  let cols := keys (recognised columns first) in
  let rows := (fun item => values (recognised columns item)) <$> items in
  let call := ExecuteValues (InsertRows (PG_SCHEMA env) table cols) rows in
  let result := Database.load_items env items table st in
  (batch_accepted env (db st) table cols rows = true ->
   result.1 = Ok tt /\
   trace result.2 = (trace st ++ lookup_io env st table ++ [call; Commit])%list /\
   rows_of (db result.2) table
   = (rows_of (db st) table ++ (zip cols <$> rows))%list) /\
  (batch_accepted env (db st) table cols rows = false ->
   (exists e, result.1 = Raise e) /\
   trace result.2 = (trace st ++ lookup_io env st table ++ [call])%list /\
   db result.2 = db st).
Proof.
  intros Hnd items columns cols rows call result.
  assert (Hrows : (fun item => Database.bound_values (recognised columns item))
                  <$> (first :: rest) = rows).
  { unfold rows, items. apply Forall_fmap_ext.
    eapply Forall_impl; [exact Hnd|]. intros item Hi. simpl.
    by apply bound_values_values, NoDup_keys_recognised. }
  unfold result, items. rewrite load_items_eval.
  fold columns cols. rewrite Hrows. fold call.
  pose proof (db_execute_values_outcome env (PG_SCHEMA env) table cols
                (values (recognised columns first))
                ((fun item => values (recognised columns item)) <$> rest)
                (db st)) as Hout.
  change (values (recognised columns first)
          :: ((fun item => values (recognised columns item)) <$> rest))
    with rows in Hout.
  destruct (db_execute_values env _ rows (db st)) as [d'|ex|];
    [destruct Hout as [Hacc Hall]| |done]; cbn [fst snd trace db after_lookup].
  - split; [|intros Hno; congruence]. intros _. split; [done|].
    rewrite <- !app_assoc. split; [done|].
    by destruct (insert_all_rows _ _ _ _ _ _ Hall) as (_ & _ & ->).
  - split; [intros Hyes; congruence|]. intros _.
    split; [by exists ex|]. by rewrite <- !app_assoc.
Qed.

Lemma load_items_columns_from_first_witness :
  Forall (fun item => NoDup (keys item))
         [[("id", VStr "o1"); ("cost", VInt 5); ("note", VStr "paid")];
          [("id", VStr "o2"); ("cost", VInt 7)]] /\
  rows_of (db (Database.load_items demo_env
                 [[("id", VStr "o1"); ("cost", VInt 5); ("note", VStr "paid")];
                  [("id", VStr "o2"); ("cost", VInt 7)]]
                 "orders" demo_state).2) "orders"
  = [[("id", VStr "o1"); ("cost", VInt 5)]; [("id", VStr "o2"); ("cost", VInt 7)]].
Proof.
  assert (Hnd : Forall (fun item => NoDup (keys item))
                  [[("id", VStr "o1"); ("cost", VInt 5); ("note", VStr "paid")];
                   [("id", VStr "o2"); ("cost", VInt 7)]]).
  { repeat (apply Forall_cons; split);
      [refine (bool_decide_unpack _ _); vm_compute; exact I ..|apply Forall_nil_2]. }
  split; [exact Hnd|].
  destruct (load_items_columns_from_first demo_env _ _ "orders" demo_state Hnd)
    as [Hok _].
  destruct Hok as (_ & _ & Hrows); [vm_compute; reflexivity|].
  rewrite Hrows. vm_compute. reflexivity.
Defined.

(** ** Quiet computations *)

Lemma events_requests_app (d1 d2 : list io) :
  events_requests (d1 ++ d2) = (events_requests d1 ++ events_requests d2)%list.
Proof. unfold events_requests. apply List.filter_app. Qed.

Lemma quiet_ret {A : Type} (a : A) : quiet (ret a).
Proof. intros st. exists []. by rewrite app_nil_r. Qed.

Lemma quiet_raise {A : Type} (e : exn) : quiet (@raise A e).
Proof. intros st. exists []. by rewrite app_nil_r. Qed.

Lemma quiet_out_of_fuel {A : Type} : quiet (@out_of_fuel A).
Proof. intros st. exists []. by rewrite app_nil_r. Qed.

Lemma quiet_lift {A : Type} (o : outcome A) : quiet (lift o).
Proof. intros st. exists []. by rewrite app_nil_r. Qed.

Lemma quiet_get_state : quiet get_state.
Proof. intros st. exists []. by rewrite app_nil_r. Qed.

Lemma quiet_set_db (d : database) : quiet (set_db d).
Proof. intros st. exists []. simpl. by rewrite app_nil_r. Qed.

Lemma quiet_set_columns (c : gmap string (list string)) : quiet (set_columns c).
Proof. intros st. exists []. simpl. by rewrite app_nil_r. Qed.

Lemma quiet_read_clock (env : Env) : quiet (read_clock env).
Proof. intros st. exists []. simpl. by rewrite app_nil_r. Qed.

Lemma quiet_emit (e : io) : is_events_request e = false -> quiet (emit e).
Proof.
  intros He st. exists [e]. split; [done|].
  unfold events_requests. simpl. by rewrite He.
Qed.

Lemma quiet_http_get (env : Env) (r : request) :
  is_events_request (Request r) = false -> quiet (http_get env r).
Proof.
  intros He st. exists [Request r]. split; [done|].
  unfold events_requests. cbn [List.filter]. by rewrite He.
Qed.

Lemma quiet_bind {A B : Type} (m : M A) (k : A -> M B) :
  quiet m -> (forall a, quiet (k a)) -> quiet (bind m k).
Proof.
  intros Hm Hk st. unfold bind.
  destruct (Hm st) as (d1 & Ht1 & Hq1).
  destruct (m st) as [[a| |] st1]; simpl in Ht1; [|by exists d1..].
  destruct (Hk a st1) as (d2 & Ht2 & Hq2).
  exists (d1 ++ d2)%list. rewrite Ht2, Ht1, <- app_assoc. split; [done|].
  by rewrite events_requests_app, Hq1, Hq2.
Qed.

Lemma quiet_for_each {A : Type} (xs : list A) (body : A -> M unit) :
  (forall x, quiet (body x)) -> quiet (for_each xs body).
Proof.
  intros Hb. induction xs as [|x xs IH]; simpl.
  - apply quiet_ret.
  - apply quiet_bind; [apply Hb|]. intros _. apply IH.
Qed.

Create HintDb quiet.
#[export] Hint Resolve quiet_ret quiet_raise quiet_out_of_fuel quiet_lift
  quiet_get_state quiet_set_db quiet_set_columns quiet_read_clock : quiet.

Ltac quiet_step :=
  lazymatch goal with
  | |- quiet (bind _ _) => apply quiet_bind; [|intros ?]
  | |- quiet (for_each _ _) => apply quiet_for_each; intros ?
  | |- quiet (emit _) => apply quiet_emit; reflexivity
  | |- quiet (http_get _ _) => apply quiet_http_get; reflexivity
  | |- quiet (match ?x with _ => _ end) => destruct x
  | |- _ => solve [auto with quiet nocore]
  end.

Ltac quiet_tac := cbv zeta; repeat quiet_step.

Lemma quiet_sleep (secs : Z) : quiet (sleep secs).
Proof. unfold sleep. quiet_tac. Qed.

Lemma quiet_commit : quiet commit.
Proof. unfold commit. quiet_tac. Qed.

Lemma quiet_utcnow (env : Env) : quiet (utcnow env).
Proof. unfold utcnow. quiet_tac. Qed.

Lemma quiet_now (env : Env) : quiet (now env).
Proof. unfold now. quiet_tac. Qed.

Lemma quiet_cursor_execute (env : Env) (s : stmt) (params : list pyval) :
  quiet (cursor_execute env s params).
Proof. unfold cursor_execute. quiet_tac. Qed.

Lemma quiet_read_sql (env : Env) (s : stmt) : quiet (read_sql env s).
Proof. unfold read_sql. quiet_tac. Qed.

#[export] Hint Resolve quiet_sleep quiet_commit quiet_utcnow quiet_now
  quiet_cursor_execute quiet_read_sql : quiet.

Lemma quiet_run_query (env : Env) (s : stmt) (c : bool) :
  quiet (Database.run_query env s c).
Proof. unfold Database.run_query. quiet_tac. Qed.

Lemma quiet_table_columns (env : Env) (table : string) :
  quiet (Database.table_columns env table).
Proof.
  unfold Database.table_columns, Database.get_columns. quiet_tac.
Qed.

#[export] Hint Resolve quiet_run_query quiet_table_columns : quiet.

Lemma quiet_load_item (env : Env) (item : dict) (table : string) :
  quiet (Database.load_item env item table).
Proof. unfold Database.load_item. quiet_tac. Qed.

Lemma quiet_delete_item (env : Env) (table : string) (item_id : pyval)
      (secondary : option dict) :
  quiet (Database.delete_item env table item_id secondary).
Proof. unfold Database.delete_item. quiet_tac. Qed.

Lemma quiet_get_item (env : Env) (table : string) (item_id : pyval)
      (secondary : option dict) :
  quiet (Database.get_item env table item_id secondary).
Proof. unfold Database.get_item. quiet_tac. Qed.

Lemma quiet_refresh_views (env : Env) : quiet (Database.refresh_views env).
Proof. unfold Database.refresh_views, Database.refresh_view. quiet_tac. Qed.

#[export] Hint Resolve quiet_load_item quiet_delete_item quiet_get_item
  quiet_refresh_views : quiet.

Lemma quiet_client_get_attendees (env : Env) (event_id page : pyval) :
  quiet (Eventbrite.get_attendees env event_id page).
Proof. unfold Eventbrite.get_attendees. quiet_tac. Qed.

Lemma quiet_client_get_venue (env : Env) (venue_id page : pyval) :
  quiet (Eventbrite.get_venue env venue_id page).
Proof. unfold Eventbrite.get_venue. quiet_tac. Qed.

#[export] Hint Resolve quiet_client_get_attendees quiet_client_get_venue : quiet.

Lemma quiet_get_attendees (env : Env) (event_id page : pyval) :
  quiet (EventbriteLoader.get_attendees env event_id page).
Proof. unfold EventbriteLoader.get_attendees. quiet_tac. Qed.

Lemma quiet_get_venue (env : Env) (venue_id page : pyval) :
  quiet (EventbriteLoader.get_venue env venue_id page).
Proof.
  unfold EventbriteLoader.get_venue, EventbriteLoader.unbound. quiet_tac.
Qed.

Lemma quiet_load_event (env : Env) (event : pyval) :
  quiet (EventbriteLoader.load_event env event).
Proof. unfold EventbriteLoader.load_event. quiet_tac. Qed.

Lemma quiet_copy_field (profile : pyval) (k : string) (a : pyval) :
  quiet (EventbriteLoader.copy_field profile k a).
Proof. unfold EventbriteLoader.copy_field. quiet_tac. Qed.

Lemma quiet_set_cost (env : Env) (x : pyval) :
  quiet (EventbriteLoader.set_cost env x).
Proof. unfold EventbriteLoader.set_cost. quiet_tac. Qed.

#[export] Hint Resolve quiet_get_attendees quiet_get_venue quiet_load_event
  quiet_copy_field quiet_set_cost : quiet.

Lemma quiet_load_attendee (env : Env) (attendee : pyval) :
  quiet (EventbriteLoader.load_attendee env attendee).
Proof. unfold EventbriteLoader.load_attendee. quiet_tac. Qed.

Lemma quiet_flatten_address (ks : list pyval) (venue_ : pyval) :
  quiet (EventbriteLoader.flatten_address ks venue_).
Proof.
  revert venue_. induction ks as [|key ks IH]; intros venue_; simpl.
  - apply quiet_ret.
  - quiet_tac.
Qed.

Lemma quiet_to_float (env : Env) (k : string) (x : pyval) :
  quiet (EventbriteLoader.to_float env k x).
Proof. unfold EventbriteLoader.to_float. quiet_tac. Qed.

#[export] Hint Resolve quiet_load_attendee quiet_flatten_address
  quiet_to_float : quiet.

Lemma quiet_load_venue (env : Env) (venue : pyval) :
  quiet (EventbriteLoader.load_venue env venue).
Proof. unfold EventbriteLoader.load_venue. quiet_tac. Qed.

#[export] Hint Resolve quiet_load_venue : quiet.

Lemma quiet_run_attendee (env : Env) (event_id attendee : pyval) :
  quiet (EventbriteLoader.run_attendee env event_id attendee).
Proof. unfold EventbriteLoader.run_attendee. quiet_tac. Qed.

#[export] Hint Resolve quiet_run_attendee : quiet.

Lemma quiet_attendees_loop (env : Env) (fuel : nat) (event_id attendees : pyval) :
  quiet (EventbriteLoader.attendees_loop env fuel event_id attendees).
Proof.
  revert attendees. induction fuel as [|fuel IH]; intros attendees; simpl.
  - apply quiet_out_of_fuel.
  - quiet_tac.
Qed.

Lemma quiet_run_venue (env : Env) (event : pyval) :
  quiet (EventbriteLoader.run_venue env event).
Proof. unfold EventbriteLoader.run_venue. quiet_tac. Qed.

#[export] Hint Resolve quiet_attendees_loop quiet_run_venue : quiet.

Lemma quiet_run_event (env : Env) (fuel : nat) (event : pyval) :
  quiet (EventbriteLoader.run_event env fuel event).
Proof. unfold EventbriteLoader.run_event. quiet_tac. Qed.

(** ** Rate-limit recovery *)

Lemma client_get_attendees_eval (env : Env) (event_id page : pyval) (st : state) :
  Eventbrite.get_attendees env event_id page st
  = (Ok (Eventbrite.parse (respond env (requests st) (GetAttendees event_id page))),
     sent (GetAttendees event_id page) st).
Proof. reflexivity. Qed.

Lemma client_get_venue_eval (env : Env) (venue_id page : pyval) (st : state) :
  Eventbrite.get_venue env venue_id page st
  = (Ok (Eventbrite.parse (respond env (requests st) (GetVenue venue_id page))),
     sent (GetVenue venue_id page) st).
Proof. reflexivity. Qed.

Lemma client_get_events_eval (env : Env) (org_id start page : pyval)
      (rs : option string) (st : state) :
  Eventbrite.range_param start = Ok rs ->
  Eventbrite.get_events env (Some org_id) start VNone page st
  = (Ok (Eventbrite.parse (respond env (requests st) (GetEvents org_id rs None page))),
     sent (GetEvents org_id rs None page) st).
Proof.
  intros Hrs. unfold Eventbrite.get_events, bind, lift. by rewrite Hrs.
Qed.

(** The wrapper around the attendee fetch: a result that is not empty is
    returned as it is; an empty one is followed by one pause and one more
    copy of the request, whose result is returned. *)
Lemma get_attendees_eval (env : Env) (event_id page : pyval) (st : state) :
  let r := GetAttendees event_id page in
  let first := Eventbrite.parse (respond env (requests st) r) in
  EventbriteLoader.get_attendees env event_id page st
  = if truthy first then (Ok first, sent r st)
    else (Ok (Eventbrite.parse (respond env (S (requests st)) r)),
          sent r (slept 3600 (sent r st))).
Proof.
  intros r first. unfold EventbriteLoader.get_attendees, bind at 1.
  rewrite client_get_attendees_eval. fold r first.
  by destruct (truthy first).
Qed.

(** The second call of [get_events] does not pass [org_id]: after the
    pause it raises TypeError and no request is sent. *)
Lemma get_events_eval (env : Env) (start page : pyval) (rs : option string)
      (st : state) :
  Eventbrite.range_param start = Ok rs ->
  let r := GetEvents (EVENTBRITE_ORG env) rs None page in
  let first := Eventbrite.parse (respond env (requests st) r) in
  EventbriteLoader.get_events env start page st
  = if truthy first then (Ok first, sent r st)
    else (Raise TypeError, slept 3600 (sent r st)).
Proof.
  intros Hrs r first. unfold EventbriteLoader.get_events, bind at 1.
  rewrite (client_get_events_eval _ _ _ _ rs) by done. fold r first.
  by destruct (truthy first).
Qed.

(** The second call of [get_venue] reads [event_id], a name the function
    does not bind: after the pause it raises NameError. *)
Lemma get_venue_eval (env : Env) (venue_id page : pyval) (st : state) :
  let r := GetVenue venue_id page in
  let first := Eventbrite.parse (respond env (requests st) r) in
  EventbriteLoader.get_venue env venue_id page st
  = if truthy first then (Ok first, sent r st)
    else (Raise (NameError "event_id"), slept 3600 (sent r st)).
Proof.
  intros r first. unfold EventbriteLoader.get_venue, bind at 1.
  rewrite client_get_venue_eval. fold r first.
  by destruct (truthy first).
Qed.

(** C2, as stated, fails: when every attendee request is refused, the
    wrapper pauses once and asks once more, and the empty result it hands
    back ends the attendee loop of the event; the run goes on to its end
    without a fault. *)
Lemma empty_attendees_do_not_fault :
  let result := EventbriteLoader.run limited_env 3 3 demo_state in
  result.1 = Ok tt /\
  requests_of (trace result.2)
  = [GetEvents (VStr "1234567") None None (VInt 1);
     GetAttendees (VStr "e1") (VInt 1);
     GetAttendees (VStr "e1") (VInt 1)] /\
  sleeps (trace result.2) = [Sleep 3600; Sleep 60].
Proof. vm_compute. repeat split. Qed.

(** One refusal of the attendee request: one pause, the same request
    again, and the attendees of its answer are loaded. *)
Example attendees_recovered_after_one_pause :
  let result := EventbriteLoader.run flaky_env 3 3 demo_state in
  result.1 = Ok tt /\
  take 3 (requests_of (trace result.2))
  = [GetEvents (VStr "1234567") None None (VInt 1);
     GetAttendees (VStr "e1") (VInt 1);
     GetAttendees (VStr "e1") (VInt 1)] /\
  sleeps (trace result.2) = [Sleep 3600; Sleep 60; Sleep 60] /\
  length (rows_of (db result.2) "attendees") = 4%nat.
Proof. vm_compute. repeat split. Qed.

(** C2, amended. A fetch of any kind whose first answer is empty is
    followed by exactly one pause of 3600 and by at most one more request,
    never by a loop. For the attendee list the request is repeated once,
    unchanged, and its answer is returned whatever it is; an empty answer
    then ends the attendee loop of the event without a fault. *)
Theorem rate_limit_recovery (env : Env) (st : state) :
  (forall event_id page,
      let r := GetAttendees event_id page in
      truthy (Eventbrite.parse (respond env (requests st) r)) = false ->
      EventbriteLoader.get_attendees env event_id page st
      = (Ok (Eventbrite.parse (respond env (S (requests st)) r)),
         logged [Request r; Sleep 3600; Request r]
                {| self_columns := self_columns st; db := db st;
                   trace := trace st; requests := S (S (requests st));
                   clock_reads := clock_reads st |})) /\
  (forall start rs page,
      Eventbrite.range_param start = Ok rs ->
      let r := GetEvents (EVENTBRITE_ORG env) rs None page in
      truthy (Eventbrite.parse (respond env (requests st) r)) = false ->
      exists d,
        trace (EventbriteLoader.get_events env start page st).2
        = (trace st ++ Request r :: Sleep 3600 :: d)%list /\
        sleeps d = [] /\ (length d <= 1)%nat) /\
  (forall venue_id page,
      let r := GetVenue venue_id page in
      truthy (Eventbrite.parse (respond env (requests st) r)) = false ->
      exists d,
        trace (EventbriteLoader.get_venue env venue_id page st).2
        = (trace st ++ Request r :: Sleep 3600 :: d)%list /\
        sleeps d = [] /\ (length d <= 1)%nat) /\
  (forall fuel event_id attendees,
      truthy attendees = false ->
      EventbriteLoader.attendees_loop env (S fuel) event_id attendees st
      = (Ok tt, st)).
Proof.
  repeat split.
  - intros event_id page r Hempty. rewrite get_attendees_eval. fold r.
    rewrite Hempty. unfold sent, slept, logged. simpl.
    by rewrite <- !app_assoc.
  - intros start rs page Hrs r Hempty.
    rewrite (get_events_eval _ _ _ rs) by done. fold r. rewrite Hempty.
    exists []. simpl. rewrite <- app_assoc. split; [done|]. split; [done|lia].
  - intros venue_id page r Hempty. rewrite get_venue_eval. fold r.
    rewrite Hempty.
    exists []. simpl. rewrite <- app_assoc. split; [done|]. split; [done|lia].
  - intros fuel event_id attendees Hempty. simpl. by rewrite Hempty.
Qed.

(** ** The venue of an event *)

Lemma get_item_eval (env : Env) (table : string) (item_id : pyval)
      (secondary : option dict) (st : state) :
  Database.get_item env table item_id secondary st
  = (Ok (first_match env (db st) table item_id None),
     logged [ReadSql (SelectWhere (PG_SCHEMA env) table
                                  (Database.id_cond env item_id))] st).
Proof.
  unfold Database.get_item, first_match, read_sql, bind, emit, get_state,
    lift, ret, db_query, logged. simpl.
  by destruct (List.filter _ _).
Qed.

Lemma first_match_by_id (env : Env) (d : database) (table : string)
      (item_id : pyval) :
  first_match env d table item_id None = VNone \/
  truthy (first_match env d table item_id None) = true.
Proof.
  unfold first_match.
  destruct (List.filter _ _) as [|row rows] eqn:Hf; [by left|right].
  assert (Hin : In row (List.filter
            (selects env (Database.id_cond env item_id
                          ++ Database.secondary_conds env None))
            (rows_of d table))) by (rewrite Hf; by left).
  apply List.filter_In in Hin as [_ Hsel].
  unfold selects, Database.id_cond in Hsel. simpl in Hsel.
  apply andb_prop in Hsel as [Hid _]. unfold holds in Hid. simpl in Hid.
  destruct row as [|kv row]; [done|done].
Qed.



(** ** The load timestamp *)

Lemma settled_subscript (v : pyval) (k : string) : settled (subscript v k).
Proof.
  unfold settled, subscript. destruct v; eauto. destruct (dict_get k d); eauto.
Qed.

Lemma settled_store (v : pyval) (k : string) (x : pyval) : settled (store v k x).
Proof. unfold settled, store. destruct v; eauto. Qed.

Lemma settled_contains (k : string) (v : pyval) : settled (contains k v).
Proof. unfold settled, contains. destruct v; eauto. Qed.

Lemma settled_float (env : Env) (v : pyval) : settled (float env v).
Proof.
  unfold settled, float. destruct v; eauto. destruct (parse_float env s); eauto.
Qed.

Lemma settled_datetime_of (env : Env) (v : pyval) :
  settled (EventbriteLoader.datetime_of env v).
Proof.
  unfold settled, EventbriteLoader.datetime_of. destruct (arrow_get env v); eauto.
Qed.

Lemma store_dict (v : pyval) (k : string) (x v' : pyval) :
  store v k x = Ok v' -> exists d, v' = VDict (dict_set k x d).
Proof.
  unfold store. destruct v; try discriminate. intros [= <-]. eauto.
Qed.

Lemma dict_get_set (k : string) (v : pyval) (d : dict) :
  dict_get k (dict_set k v d) = Some v.
Proof.
  induction d as [|[k' v'] d IH]; simpl.
  - by rewrite String.eqb_refl.
  - destruct (String.eqb_spec k k') as [->|Hne]; simpl.
    + by rewrite String.eqb_refl.
    + destruct (String.eqb_spec k k'); [done|apply IH].
Qed.

Lemma dict_get_not_key (k : string) (d : dict) :
  k ∉ keys d -> dict_get k d = None.
Proof.
  unfold keys. induction d as [|[k' v] d IH]; simpl; intros Hk; [done|].
  apply not_elem_of_cons in Hk as [Hne Hk].
  destruct (String.eqb_spec k k'); [done|by apply IH].
Qed.

Lemma dict_get_zip_omap (g : string -> option pyval) (l : list string) (k : string) :
  (forall x, x ∈ l -> is_Some (g x)) ->
  dict_get k (zip l (omap g l)) = if bool_decide (k ∈ l) then g k else None.
Proof.
  induction l as [|a l IH]; intros Hg.
  - case_bool_decide as Hk; [by apply elem_of_nil in Hk|done].
  - csimpl. destruct (Hg a) as [b Hb]; [left|]. rewrite Hb. simpl.
    destruct (String.eqb_spec k a) as [->|Hne].
    + rewrite bool_decide_eq_true_2 by left. by rewrite Hb.
    + rewrite IH by (intros x Hx; apply Hg; by right).
      destruct (decide (k ∈ l)) as [Hk|Hk].
      * rewrite !bool_decide_eq_true_2; [done|by right|done].
      * rewrite !bool_decide_eq_false_2; [done| |done].
        rewrite elem_of_cons. tauto.
Qed.

(** The row an INSERT stores has, under every name, the value the record
    has under that name. *)
Lemma dict_get_zip_bound_values (k : string) (d : dict) :
  dict_get k (zip (keys d) (Database.bound_values d)) = dict_get k d.
Proof.
  unfold Database.bound_values.
  rewrite dict_get_zip_omap by (intros x Hx; by apply dict_get_key).
  case_bool_decide as Hk; [done|]. symmetry. by apply dict_get_not_key.
Qed.

Lemma hands_over_lift {A : Type} (env : Env) (table : string) (st : state)
      (o : outcome A) (k : A -> M unit) :
  settled o ->
  (forall a, o = Ok a -> hands_over env table st (k a st)) ->
  hands_over env table st (bind (lift o) k st).
Proof.
  intros [[a ->]|[e ->]] Hk.
  - by apply Hk.
  - left. by exists e.
Qed.

Lemma hands_over_stateless {A : Type} (env : Env) (table : string) (st : state)
      (m : M A) (k : A -> M unit) :
  stateless m ->
  (forall a, m st = (Ok a, st) -> hands_over env table st (k a st)) ->
  hands_over env table st (bind m k st).
Proof.
  intros (o & [[a ->]|[e ->]] & Hm) Hk; unfold bind; rewrite Hm.
  - apply Hk. apply Hm.
  - left. by exists e.
Qed.

(** The last three steps of every stamping loader, on a record that is a
    dict: read the clock, store the reading, hand the record over. *)
Lemma hands_over_stamp (env : Env) (table : string) (st : state) (d : dict) :
  hands_over env table st
    ((let* t := utcnow env in
      let* x_ := lift (store (VDict d) "load_datetime" t) in
      let* item := lift (EventbriteLoader.as_dict x_) in
      Database.load_item env item table) st).
Proof. right. exists d. reflexivity. Qed.

Lemma copy_field_stateless (profile : pyval) (k : string) (a : pyval) :
  stateless (EventbriteLoader.copy_field profile k a).
Proof.
  unfold stateless, EventbriteLoader.copy_field, bind, lift, ret.
  destruct (settled_contains k profile) as [[[] ->]|[e ->]].
  - destruct (settled_subscript profile k) as [[v ->]|[e ->]].
    + exists (store a k v). split; [apply settled_store|done].
    + exists (Raise e). split; [right; eauto|done].
  - exists (Ok a). split; [left; eauto|done].
  - exists (Raise e). split; [right; eauto|done].
Qed.

(** [set_cost] touches no state and returns a dict when it returns. *)
Lemma set_cost_stateless (env : Env) (x : pyval) :
  exists o, settled o /\ (forall v, o = Ok v -> exists d, v = VDict d) /\
            forall st, EventbriteLoader.set_cost env x st = (o, st).
Proof.
  unfold EventbriteLoader.set_cost, bind, lift.
  destruct (settled_subscript x "costs") as [[costs ->]|[e ->]];
    [|exists (Raise e); split; [right; eauto|split; [discriminate|done]]].
  destruct (settled_subscript costs "gross") as [[gross ->]|[e ->]];
    [|exists (Raise e); split; [right; eauto|split; [discriminate|done]]].
  destruct (settled_subscript gross "major_value") as [[cost ->]|[e ->]];
    [|exists (Raise e); split; [right; eauto|split; [discriminate|done]]].
  destruct (settled_float env cost) as [[f ->]|[e ->]];
    [|exists (Raise e); split; [right; eauto|split; [discriminate|done]]].
  exists (store x "cost" f). split; [apply settled_store|]. split; [|done].
  intros v Hv. apply store_dict in Hv as [d ->]. eauto.
Qed.

Lemma load_event_hands_over (env : Env) (event : pyval) (st : state) :
  hands_over env "events" st (EventbriteLoader.load_event env event st).
Proof.
  unfold EventbriteLoader.load_event, deepcopy. cbv zeta.
  repeat (apply hands_over_lift;
          [first [apply settled_subscript | apply settled_store
                 | apply settled_datetime_of]|intros ? ?]).
  match goal with
  | H : store _ "name" _ = Ok ?v |- _ => apply store_dict in H as [d ->]
  end.
  apply hands_over_stamp.
Qed.

Lemma load_order_hands_over (env : Env) (order : pyval) (st : state) :
  hands_over env "orders" st (EventbriteLoader.load_order env order st).
Proof.
  unfold EventbriteLoader.load_order, deepcopy. cbv zeta.
  destruct (set_cost_stateless env order) as (o & Ho & Hd & Hs).
  apply hands_over_stateless; [by exists o|].
  intros v Hv. rewrite Hs in Hv. injection Hv as Hv.
  destruct (Hd v Hv) as [d ->]. apply hands_over_stamp.
Qed.

Lemma load_attendee_hands_over (env : Env) (attendee : pyval) (st : state) :
  hands_over env "attendees" st (EventbriteLoader.load_attendee env attendee st).
Proof.
  unfold EventbriteLoader.load_attendee, deepcopy. cbv zeta.
  apply hands_over_lift; [apply settled_subscript|intros profile _].
  apply hands_over_stateless; [apply copy_field_stateless|intros b1 _].
  apply hands_over_stateless; [apply copy_field_stateless|intros b2 _].
  apply hands_over_stateless; [apply copy_field_stateless|intros b3 _].
  apply hands_over_stateless; [apply copy_field_stateless|intros b4 _].
  destruct (set_cost_stateless env b4) as (o & Ho & Hd & Hs).
  apply hands_over_stateless; [by exists o|].
  intros v Hv. rewrite Hs in Hv. injection Hv as Hv.
  destruct (Hd v Hv) as [d ->]. apply hands_over_stamp.
Qed.

(** C3. [load_venue] does not stamp its record, where [load_event],
    [load_attendee] and [load_order] do (the three lemmas above): on the
    venue payload below the venues table has a [load_datetime] column, the
    row is stored, and it has no such field; the clock is never read. *)
Theorem load_venue_sets_no_load_timestamp :
  let result := EventbriteLoader.load_venue demo_env demo_venue demo_state in
  result.1 = Ok tt /\
  "load_datetime" ∈ known_columns demo_state "venues" /\
  rows_of (db result.2) "venues"
  = [[("id", VStr "v1"); ("name", VStr "Main hall");
      ("latitude", VFloat (777 # 20)); ("longitude", VFloat (-773 # 10));
      ("city", VStr "Fairfax"); ("region", VStr "VA")]] /\
  clock_reads result.2 = clock_reads demo_state.
Proof.
  split; [vm_compute; reflexivity|].
  split; [refine (bool_decide_unpack _ _); vm_compute; exact I|].
  split; vm_compute; reflexivity.
Qed.

(** The three other loaders on the synthetic payloads: each row is stored
    with the reading of the clock taken at its transformation. *)
Example stamped_rows :
  rows_of (db (EventbriteLoader.load_event demo_env (demo_event "e1" VNone)
                 demo_state).2) "events"
  = [[("id", VStr "e1"); ("name", VStr "Purim party");
      ("description", VStr "Bring a costume"); ("venue_id", VNone);
      ("start_datetime", VTime 1553122800000000);
      ("end_datetime", VTime 1553133600000000);
      ("load_datetime", VTime 1553200000000000)]] /\
  rows_of (db (EventbriteLoader.load_attendee demo_env (demo_attendee "a1" "e1")
                 demo_state).2) "attendees"
  = [[("id", VStr "a1"); ("event_id", VStr "e1"); ("name", VStr "Ann Lee");
      ("email", VStr "ann@example.org"); ("cost", VFloat (25 # 2));
      ("load_datetime", VTime 1553200000000000)]] /\
  rows_of (db (EventbriteLoader.load_order demo_env demo_order demo_state).2)
          "orders"
  = [[("id", VStr "o1"); ("cost", VFloat (25 # 2));
      ("load_datetime", VTime 1553200000000000)]].
Proof. vm_compute. repeat split. Qed.

(** ** The run *)

Lemma bind_lift_ok {A B : Type} (a : A) (k : A -> M B) (st : state) :
  bind (lift (Ok a)) k st = k a st.
Proof. reflexivity. Qed.

Lemma bind_ok {A B : Type} (m : M A) (k : A -> M B) (a : A) (st st1 : state) :
  m st = (Ok a, st1) -> bind m k st = k a st1.
Proof. intros Hm. unfold bind. by rewrite Hm. Qed.

Lemma start_date_eval (env : Env) (st : state) :
  exists start rs st1,
    EventbriteLoader.start_date env st = (Ok start, st1) /\
    Eventbrite.range_param start = Ok rs /\
    trace st1 = (trace st ++ [ReadSql (SelectMaxLoad (PG_SCHEMA env))])%list /\
    db st1 = db st /\ self_columns st1 = self_columns st /\
    requests st1 = requests st.
Proof.
  unfold EventbriteLoader.start_date, Database.last_event_load_date, read_sql,
    bind, emit, get_state, lift, db_query. simpl.
  destruct (load_times (rows_of (db st) "events")) as [|t l]; simpl.
  - eexists VNone, None, _. repeat split; reflexivity.
  - set (s := date_prefix env _).
    destruct (truthy (VStr s)) eqn:Hs.
    + eexists (VStr s), (Some (s ++ "T0:00:00")), _.
      split; [reflexivity|]. split; [|repeat split; reflexivity].
      unfold Eventbrite.range_param. by rewrite Hs.
    + eexists (VStr s), None, _.
      split; [reflexivity|]. split; [|repeat split; reflexivity].
      unfold Eventbrite.range_param. by rewrite Hs.
Qed.

Lemma refresh_views_eval (env : Env) (st : state) :
  Database.refresh_views env st = (Ok tt, logged (refresh_io env) st).
Proof.
  unfold Database.refresh_views, Database.refresh_view, Database.run_query,
    cursor_execute, commit, bind, emit, get_state, lift, set_db, ret, logged,
    refresh_io. simpl. unfold bind, ret. simpl. by rewrite <- !app_assoc.
Qed.

(** C8. When the first page of events reports a count of zero, [run]
    returns after the start-date query and that one fetch: no event is
    processed and no view is refreshed. When the count is positive, [run]
    is the loop over the pages followed, if the loop completes, by the
    refresh of every configured view, in order, each committed; if the loop
    raises, [run] raises and refreshes nothing. *)
Theorem run_zero_count_or_refresh
        (env : Env) (count : nat) (body pagination_ : pyval)
        (fuel_a fuel : nat) (st : state) :
  (forall rs, respond env (requests st)
                (GetEvents (EVENTBRITE_ORG env) rs None (VInt 1)) = (200, body)) ->
  truthy body = true ->
  subscript body "pagination" = Ok pagination_ ->
  subscript pagination_ "object_count" = Ok (VInt (Z.of_nat count)) ->
  exists start rs st1,
    trace st1
    = (trace st ++ [ReadSql (SelectMaxLoad (PG_SCHEMA env));
                    Request (GetEvents (EVENTBRITE_ORG env) rs None (VInt 1))])%list /\
    db st1 = db st /\
    (count = O -> EventbriteLoader.run env fuel_a fuel st = (Ok tt, st1)) /\
    (count <> O ->
     forall o st2,
       EventbriteLoader.events_loop env fuel_a fuel start body st1 = (o, st2) ->
       EventbriteLoader.run env fuel_a fuel st
       = match o with
         | Ok _ => (Ok tt, logged (refresh_io env) st2)
         | _ => (o, st2)
         end).
Proof.
  intros Hpage Hbody Hpg Hcount.
  destruct (start_date_eval env st) as (start & rs & st0 & Hs & Hrs & Ht & Hd & _ & Hr).
  exists start, rs, (sent (GetEvents (EVENTBRITE_ORG env) rs None (VInt 1)) st0).
  assert (Hfetch : EventbriteLoader.get_events env start (VInt 1) st0
                   = (Ok body, sent (GetEvents (EVENTBRITE_ORG env) rs None (VInt 1)) st0)).
  { rewrite (get_events_eval _ _ _ rs) by done.
    rewrite Hr, Hpage. unfold Eventbrite.parse. simpl. by rewrite Hbody. }
  assert (Hrun : EventbriteLoader.run env fuel_a fuel st
    = (let* some := lift (gt_zero (VInt (Z.of_nat count))) in
       if some : bool
       then EventbriteLoader.events_loop env fuel_a fuel start body >>
            Database.refresh_views env
       else ret tt)
      (sent (GetEvents (EVENTBRITE_ORG env) rs None (VInt 1)) st0)).
  { unfold EventbriteLoader.run.
    rewrite (bind_ok _ _ _ _ _ Hs), (bind_ok _ _ _ _ _ Hfetch).
    by rewrite Hpg, bind_lift_ok, Hcount, bind_lift_ok. }
  split; [simpl; by rewrite Ht, <- app_assoc|].
  split; [done|]. split.
  - intros ->. by rewrite Hrun.
  - intros Hpos o st2 Hloop. rewrite Hrun. simpl gt_zero. rewrite bind_lift_ok.
    replace (0 <? Z.of_nat count)%Z with true by (symmetry; apply Z.ltb_lt; lia).
    unfold bind. rewrite Hloop. destruct o; [|done..].
    apply refresh_views_eval.
Qed.

Lemma run_zero_count_or_refresh_witness :
  (forall rs, respond idle_env (requests demo_state)
                (GetEvents (EVENTBRITE_ORG idle_env) rs None (VInt 1))
              = (200, events_page 0 1 false [])) /\
  (EventbriteLoader.run idle_env 3 3 demo_state).1 = Ok tt /\
  db (EventbriteLoader.run idle_env 3 3 demo_state).2 = db demo_state.
Proof.
  assert (Hpage : forall rs, respond idle_env (requests demo_state)
                    (GetEvents (EVENTBRITE_ORG idle_env) rs None (VInt 1))
                  = (200, events_page 0 1 false [])) by reflexivity.
  split; [exact Hpage|].
  destruct (run_zero_count_or_refresh idle_env 0 (events_page 0 1 false [])
              (pagination 0 1 false) 3 3 demo_state Hpage eq_refl eq_refl eq_refl)
    as (start & rs & st1 & _ & Hdb & Hzero & _).
  rewrite (Hzero eq_refl). simpl. split; [reflexivity|exact Hdb].
Defined.

(** The run over the two pages of the synthetic service: both views of
    the claim at once, the fetches and the refresh at the end. *)
Example run_two_pages :
  let result := EventbriteLoader.run demo_env 3 3 demo_state in
  result.1 = Ok tt /\
  requests_of (trace result.2)
  = [GetEvents (VStr "1234567") None None (VInt 1);
     GetAttendees (VStr "e1") (VInt 1);
     GetEvents (VStr "1234567") None None (VInt 2);
     GetVenue (VStr "v1") (VInt 1);
     GetAttendees (VStr "e2") (VInt 1)] /\
  sleeps (trace result.2) = [Sleep 60; Sleep 60] /\
  drop (length (trace result.2) - 6) (trace result.2) = refresh_io demo_env.
Proof. vm_compute. repeat split. Qed.

(** ** Pagination *)

Lemma for_each_quiet_ok {A : Type} (I : state -> Prop) (xs : list A)
      (body : A -> M unit) (st : state) :
  (forall x, quiet (body x)) ->
  (forall x st0, In x xs -> I st0 ->
                 exists st1, body x st0 = (Ok tt, st1) /\ I st1) ->
  I st ->
  exists st', for_each xs body st = (Ok tt, st') /\ I st' /\
              events_requests (trace st') = events_requests (trace st).
Proof.
  intros Hq. revert st. induction xs as [|x xs IH]; intros st Hb HI.
  - exists st. done.
  - destruct (Hb x st) as (st1 & Hx & HI1); [by left|done|].
    destruct (IH st1) as (st' & Hxs & HI' & Hreq);
      [intros y st0 Hy; apply Hb; by right|done|].
    exists st'. simpl. rewrite (bind_ok _ _ _ _ _ Hx).
    split; [done|]. split; [done|].
    rewrite Hreq. destruct (Hq x st) as (d & Hd & Hnone).
    rewrite Hx in Hd. simpl in Hd.
    by rewrite Hd, events_requests_app, Hnone, app_nil_r.
Qed.

Lemma events_loop_pages (env : Env) (N : nat) (count : Z)
      (events : nat -> list pyval) (fuel_a : nat) (I : state -> Prop)
      (start : pyval) (rs : option string) :
  Eventbrite.range_param start = Ok rs ->
  serves_pages env N count events ->
  events_processed env N events fuel_a I ->
  blind I ->
  forall (m k fuel : nat) (st : state),
    (1 <= k)%nat -> (k + m = N)%nat -> (m < fuel)%nat -> I st ->
    exists st',
      EventbriteLoader.events_loop env fuel_a fuel start
        (events_page count (Z.of_nat k) (k <? N)%nat (events k)) st
      = (Ok tt, st') /\
      events_requests (trace st')
      = (events_requests (trace st) ++ (page_request env rs <$> seq (S k) m))%list.
Proof.
  intros Hrs Hserve Hproc Hblind.
  induction m as [|m IH]; intros k fuel st Hk HN Hfuel HI;
    (destruct fuel as [|fuel]; [lia|]).
  - destruct (for_each_quiet_ok I (events k)
                (EventbriteLoader.run_event env fuel_a) st)
      as (st1 & Hfor & _ & Hreq);
      [apply quiet_run_event|intros ev st0; apply Hproc; lia|done|].
    exists st1. cbn [EventbriteLoader.events_loop].
    change (subscript (events_page count (Z.of_nat k) (k <? N)%nat (events k)) "events")
      with (@Ok pyval (VList (events k))).
    rewrite bind_lift_ok. simpl iterate. rewrite bind_lift_ok.
    rewrite (bind_ok _ _ _ _ _ Hfor).
    change (subscript (events_page count (Z.of_nat k) (k <? N)%nat (events k)) "pagination")
      with (@Ok pyval (pagination count (Z.of_nat k) (k <? N)%nat)).
    rewrite bind_lift_ok.
    change (subscript (pagination count (Z.of_nat k) (k <? N)%nat) "has_more_items")
      with (@Ok pyval (VBool (k <? N)%nat)).
    rewrite bind_lift_ok.
    replace (k <? N)%nat with false by (symmetry; apply Nat.ltb_ge; lia).
    cbn [truthy negb]. split; [done|]. simpl. by rewrite Hreq, app_nil_r.
  - destruct (for_each_quiet_ok I (events k)
                (EventbriteLoader.run_event env fuel_a) st)
      as (st1 & Hfor & HI1 & Hreq);
      [apply quiet_run_event|intros ev st0; apply Hproc; lia|done|].
    set (r := GetEvents (EVENTBRITE_ORG env) rs None (VInt (Z.of_nat (S k)))).
    destruct (IH (S k) fuel (sent r st1)) as (st' & Hloop & Hreq');
      [lia|lia|lia|by apply (Hblind st1)|].
    exists st'. cbn [EventbriteLoader.events_loop].
    change (subscript (events_page count (Z.of_nat k) (k <? N)%nat (events k)) "events")
      with (@Ok pyval (VList (events k))).
    rewrite bind_lift_ok. simpl iterate. rewrite bind_lift_ok.
    rewrite (bind_ok _ _ _ _ _ Hfor).
    change (subscript (events_page count (Z.of_nat k) (k <? N)%nat (events k)) "pagination")
      with (@Ok pyval (pagination count (Z.of_nat k) (k <? N)%nat)).
    rewrite bind_lift_ok.
    change (subscript (pagination count (Z.of_nat k) (k <? N)%nat) "has_more_items")
      with (@Ok pyval (VBool (k <? N)%nat)).
    rewrite bind_lift_ok.
    replace (k <? N)%nat with true by (symmetry; apply Nat.ltb_lt; lia).
    cbn [truthy negb]. rewrite bind_lift_ok.
    change (subscript (pagination count (Z.of_nat k) true) "page_number")
      with (@Ok pyval (VInt (Z.of_nat k))).
    rewrite bind_lift_ok. simpl add_one. rewrite bind_lift_ok.
    replace (Z.of_nat k + 1) with (Z.of_nat (S k)) by lia.
    assert (Hfetch : EventbriteLoader.get_events env start (VInt (Z.of_nat (S k))) st1
                     = (Ok (events_page count (Z.of_nat (S k)) (S k <? N)%nat (events (S k))),
                        sent r st1)).
    { rewrite (get_events_eval _ _ _ rs) by done.
      rewrite !Hserve by lia. reflexivity. }
    rewrite (bind_ok _ _ _ _ _ Hfetch). split; [exact Hloop|].
    rewrite Hreq'. simpl trace. rewrite events_requests_app, Hreq.
    rewrite <- app_assoc. reflexivity.
Qed.


(** ** Runs that complete *)

Lemma total_ret {A : Type} (I : state -> Prop) (a : A) (Q : A -> Prop) :
  Q a -> total I (ret a) Q.
Proof. intros HQ st HI. by exists a, st. Qed.

Lemma total_bind {A B : Type} (I : state -> Prop) (m : M A) (k : A -> M B)
      (Q : A -> Prop) (R : B -> Prop) :
  total I m Q -> (forall a, Q a -> total I (k a) R) -> total I (bind m k) R.
Proof.
  intros Hm Hk st HI. destruct (Hm st HI) as (a & st1 & Hma & HI1 & HQ).
  destruct (Hk a HQ st1 HI1) as (b & st2 & Hkb & HI2 & HR).
  exists b, st2. by rewrite (bind_ok _ _ _ _ _ Hma).
Qed.

Lemma total_bind_lift {A B : Type} (I : state -> Prop) (o : outcome A) (a : A)
      (k : A -> M B) (R : B -> Prop) :
  o = Ok a -> total I (k a) R -> total I (bind (lift o) k) R.
Proof. intros -> Hk. exact Hk. Qed.

Lemma total_for_each {A : Type} (I : state -> Prop) (xs : list A)
      (body : A -> M unit) :
  (forall x, In x xs -> total I (body x) (fun _ => True)) ->
  total I (for_each xs body) (fun _ => True).
Proof.
  induction xs as [|x xs IH]; intros Hb; simpl.
  - by apply total_ret.
  - apply (total_bind _ _ _ (fun _ => True)); [apply Hb; by left|].
    intros _ _. apply IH. intros y Hy. apply Hb. by right.
Qed.

Section Consistent.
Context (env : Env) (cat : gmap string (list string)).

Lemma consistent_blind : blind (consistent cat).
Proof. intros st0 st1 Hc Hd [Hcat Hcache]. split; by rewrite ?Hc, ?Hd. Qed.

Lemma consistent_known_columns (st : state) (t : string) :
  consistent cat st -> known_columns st t = remove_dups (default [] (cat !! t)).
Proof.
  intros [Hcat Hcache]. unfold known_columns.
  destruct (self_columns st !! t) as [cols|] eqn:Ht; [by apply Hcache|].
  by rewrite Hcat.
Qed.

Lemma total_sleep (secs : Z) :
  total (consistent cat) (sleep secs) (fun _ => True).
Proof.
  intros st HI. eexists tt, _. split; [reflexivity|]. split; [|done].
  by apply (consistent_blind st).
Qed.

Lemma total_utcnow :
  total (consistent cat) (utcnow env) (fun t => exists z, t = VTime z).
Proof.
  intros st HI. eexists _, _. split; [reflexivity|].
  split; [by apply (consistent_blind st)|eauto].
Qed.

Lemma total_delete_item (table : string) (item_id : pyval)
      (secondary : option dict) :
  total (consistent cat) (Database.delete_item env table item_id secondary)
        (fun _ => True).
Proof.
  intros st [Hcat Hcache]. eexists tt, _. split; [reflexivity|].
  split; [|done]. split; [exact Hcat|exact Hcache].
Qed.

Lemma total_get_item (table : string) (item_id : pyval) :
  total (consistent cat) (Database.get_item env table item_id None)
        (fun v => v = VNone \/ truthy v = true).
Proof.
  intros st HI. eexists _, _. split; [apply get_item_eval|].
  split; [by apply (consistent_blind st)|apply first_match_by_id].
Qed.

Lemma total_load_item (item : dict) (table : string) :
  (forall d t row, refuses env d t row = false) ->
  NoDup (keys item) ->
  let kept := recognised (remove_dups (default [] (cat !! table))) item in
  kept <> [] -> forallb adaptable (values kept) = true ->
  total (consistent cat) (Database.load_item env item table) (fun _ => True).
Proof.
  intros Href Hnd kept Hkept Hadapt st HI. rewrite load_item_outcome by done.
  rewrite (consistent_known_columns st table HI). fold kept.
  destruct HI as [Hcat Hcache].
  assert (Hacc : insert_accepted env (db st) table kept = true).
  { unfold insert_accepted. rewrite Hadapt. cbn [andb].
    pose proof (engine_accepts_recognised env (db st) table item Href Hnd) as H.
    unfold columns_of in H. rewrite Hcat in H. by apply H. }
  rewrite Hacc. eexists tt, _. split; [reflexivity|]. split; [|done].
  split; [exact Hcat|].
  intros t cols. simpl. unfold cache_after.
  destruct (self_columns st !! table) as [c|] eqn:Hc; [apply Hcache|].
  destruct (decide (table = t)) as [<-|Hne].
  - rewrite lookup_insert_eq. intros [= <-]. unfold known_columns.
    by rewrite Hc, Hcat.
  - rewrite lookup_insert_ne by done. apply Hcache.
Qed.

Lemma total_get_attendees (event_id page answer : pyval) :
  (forall n, respond env n (GetAttendees event_id page) = (200, answer)) ->
  truthy answer = true ->
  total (consistent cat) (EventbriteLoader.get_attendees env event_id page)
        (fun v => v = answer).
Proof.
  intros Hr Ht st HI. rewrite get_attendees_eval, Hr.
  unfold Eventbrite.parse. simpl. rewrite Ht.
  eexists _, _. split; [reflexivity|].
  split; [by apply (consistent_blind st)|done].
Qed.

Lemma total_get_venue (venue_id page answer : pyval) :
  (forall n, respond env n (GetVenue venue_id page) = (200, answer)) ->
  truthy answer = true ->
  total (consistent cat) (EventbriteLoader.get_venue env venue_id page)
        (fun v => v = answer).
Proof.
  intros Hr Ht st HI. rewrite get_venue_eval, Hr.
  unfold Eventbrite.parse. simpl. rewrite Ht.
  eexists _, _. split; [reflexivity|].
  split; [by apply (consistent_blind st)|done].
Qed.

End Consistent.

(** Stepping through a loader on a concrete payload: every pure step is
    evaluated, the clock reading stays a variable. *)
Ltac total_pure :=
  repeat (eapply total_bind_lift; [reflexivity|]; cbv beta).

(** The last step on a concrete record: the engine of the synthetic world
    refuses nothing, the keys are distinct, a field is recognised and every
    recognised value can be bound. *)
Ltac total_insert :=
  apply total_load_item;
  [ reflexivity
  | refine (bool_decide_unpack _ _); vm_compute; exact I
  | vm_compute; discriminate
  | vm_compute; reflexivity ].

Lemma total_load_event_demo (id : string) (venue_id : pyval) :
  venue_id = VNone \/ venue_id = VStr "v1" ->
  total (consistent (catalog demo_db))
        (EventbriteLoader.load_event demo_env (demo_event id venue_id))
        (fun _ => True).
Proof.
  intros Hv. unfold EventbriteLoader.load_event, deepcopy. cbv zeta. total_pure.
  eapply total_bind; [apply total_utcnow|]. intros t [z ->]. total_pure.
  destruct Hv as [-> | ->]; total_insert.
Qed.

Lemma total_load_attendee_demo (id event_id : string) :
  total (consistent (catalog demo_db))
        (EventbriteLoader.load_attendee demo_env (demo_attendee id event_id))
        (fun _ => True).
Proof.
  unfold EventbriteLoader.load_attendee, EventbriteLoader.copy_field,
    EventbriteLoader.set_cost, deepcopy. cbv zeta. total_pure.
  eapply total_bind; [apply total_utcnow|]. intros t [z ->]. total_pure.
  total_insert.
Qed.

Lemma total_load_venue_demo :
  total (consistent (catalog demo_db))
        (EventbriteLoader.load_venue demo_env demo_venue) (fun _ => True).
Proof.
  unfold EventbriteLoader.load_venue, EventbriteLoader.to_float, deepcopy.
  cbv zeta. total_pure. cbn [EventbriteLoader.flatten_address]. total_pure.
  total_insert.
Qed.

Lemma total_run_attendee_demo (event_id id e : string) :
  total (consistent (catalog demo_db))
        (EventbriteLoader.run_attendee demo_env (VStr event_id)
                                       (demo_attendee id e))
        (fun _ => True).
Proof.
  unfold EventbriteLoader.run_attendee. cbn [truthy demo_attendee negb].
  total_pure.
  eapply total_bind; [apply total_delete_item|]. intros _ _.
  apply total_load_attendee_demo.
Qed.

Lemma total_attendees_loop_demo (fuel : nat) (e : string) :
  total (consistent (catalog demo_db))
        (EventbriteLoader.attendees_loop demo_env (S fuel) (VStr e)
           (attendees_page 1 false [demo_attendee "a1" e; demo_attendee "a2" e]))
        (fun _ => True).
Proof.
  cbn [EventbriteLoader.attendees_loop truthy attendees_page negb].
  total_pure.
  eapply total_bind.
  { apply total_for_each. intros x [<-|[<-|[]]]; apply total_run_attendee_demo. }
  intros _ _. total_pure. cbn [truthy negb]. by apply total_ret.
Qed.

Lemma total_run_venue_demo (id : string) (venue_id : pyval) :
  venue_id = VNone \/ venue_id = VStr "v1" ->
  total (consistent (catalog demo_db))
        (EventbriteLoader.run_venue demo_env (demo_event id venue_id))
        (fun _ => True).
Proof.
  intros Hv. unfold EventbriteLoader.run_venue. total_pure.
  eapply total_bind; [apply total_get_item|]. intros found Hfound.
  destruct Hv as [->| ->]; [by apply total_ret|].
  destruct Hfound as [->|Hfound]; cbn [truthy andb negb String.eqb Ascii.eqb
                                        Bool.eqb].
  - eapply total_bind.
    + by apply (total_get_venue _ _ _ _ demo_venue).
    + intros v ->. apply total_load_venue_demo.
  - rewrite Hfound. by apply total_ret.
Qed.

Lemma total_run_event_demo (fuel : nat) (id : string) (venue_id : pyval) :
  venue_id = VNone \/ venue_id = VStr "v1" ->
  total (consistent (catalog demo_db))
        (EventbriteLoader.run_event demo_env (S fuel) (demo_event id venue_id))
        (fun _ => True).
Proof.
  intros Hv. unfold EventbriteLoader.run_event.
  change (truthy (demo_event id venue_id)) with true. cbn [negb]. total_pure.
  eapply total_bind; [apply total_delete_item|]. intros _ _.
  eapply total_bind; [by apply total_load_event_demo|]. intros _ _.
  eapply total_bind; [by apply total_run_venue_demo|]. intros _ _.
  eapply total_bind.
  { apply (total_get_attendees _ _ _ _
             (attendees_page 1 false [demo_attendee "a1" id; demo_attendee "a2" id]));
      done. }
  intros v ->.
  eapply total_bind; [apply total_attendees_loop_demo|]. intros _ _.
  apply total_sleep.
Qed.

Lemma demo_serves_pages : serves_pages demo_env 2 2 demo_events.
Proof.
  intros n rs ms k Hk.
  assert (Hcases : k = 1%nat \/ k = 2%nat) by lia.
  by destruct Hcases as [-> | ->].
Qed.

Lemma demo_events_processed :
  events_processed demo_env 2 demo_events 1 (consistent (catalog demo_db)).
Proof.
  intros k event st0 Hk Hin HI.
  assert (Hcases : k = 1%nat \/ k = 2%nat) by lia.
  destruct Hcases as [-> | ->]; destruct Hin as [<-|[]].
  - destruct (total_run_event_demo 0 "e1" VNone (or_introl eq_refl) st0 HI)
      as ([] & st1 & Hrun & HI1 & _). by exists st1.
  - destruct (total_run_event_demo 0 "e2" (VStr "v1") (or_intror eq_refl) st0 HI)
      as ([] & st1 & Hrun & HI1 & _). by exists st1.
Qed.

(** C7. Against a service with [N] pages of events, where the flag for
    more items is set on every page but the last, [run] asks for the pages
    [1], [2], ..., [N], once each and in this order (the page after [k] is
    the page number [k] the response reports, plus one), then leaves the
    loop and returns. The events of the pages are assumed to be processed
    without a fault. *)
Theorem run_fetches_each_page_once
        (env : Env) (N : nat) (count : Z) (events : nat -> list pyval)
        (fuel_a fuel : nat) (I : state -> Prop) (st : state) :
  (1 <= N)%nat -> (N <= fuel)%nat -> 0 < count ->
  serves_pages env N count events ->
  events_processed env N events fuel_a I ->
  blind I -> I st ->
  exists rs st',
    EventbriteLoader.run env fuel_a fuel st = (Ok tt, st') /\
    events_requests (trace st')
    = (events_requests (trace st) ++ (page_request env rs <$> seq 1 N))%list.
Proof.
  intros HN Hfuel Hcount Hserve Hproc Hblind HI.
  destruct (start_date_eval env st)
    as (start & rs & st0 & Hs & Hrs & Ht & Hd & Hc & Hr).
  set (r := GetEvents (EVENTBRITE_ORG env) rs None (VInt 1)).
  assert (Hfetch : EventbriteLoader.get_events env start (VInt 1) st0
                   = (Ok (events_page count 1 (1 <? N)%nat (events 1%nat)),
                      sent r st0)).
  { rewrite (get_events_eval _ _ _ rs) by done.
    rewrite !(Hserve _ _ _ 1%nat) by lia. reflexivity. }
  destruct (events_loop_pages env N count events fuel_a I start rs
              Hrs Hserve Hproc Hblind (N - 1) 1 fuel (sent r st0))
    as (st2 & Hloop & Hreq); [lia|lia|lia| |].
  { apply (Hblind st); [done|done|exact HI]. }
  exists rs, (logged (refresh_io env) st2). split.
  - unfold EventbriteLoader.run.
    rewrite (bind_ok _ _ _ _ _ Hs), (bind_ok _ _ _ _ _ Hfetch).
    change (subscript (events_page count 1 (1 <? N)%nat (events 1%nat)) "pagination")
      with (@Ok pyval (pagination count 1 (1 <? N)%nat)).
    rewrite bind_lift_ok.
    change (subscript (pagination count 1 (1 <? N)%nat) "object_count")
      with (@Ok pyval (VInt count)).
    rewrite bind_lift_ok. simpl gt_zero. rewrite bind_lift_ok.
    replace (0 <? count)%Z with true by (symmetry; apply Z.ltb_lt; lia).
    change (Z.of_nat 1) with 1 in Hloop.
    rewrite (bind_ok _ _ _ _ _ Hloop). apply refresh_views_eval.
  - simpl trace. rewrite events_requests_app, Hreq. simpl trace.
    rewrite events_requests_app, Ht, events_requests_app.
    change (events_requests (refresh_io env)) with (@nil io).
    change (events_requests [ReadSql (SelectMaxLoad (PG_SCHEMA env))])
      with (@nil io).
    rewrite !app_nil_r, <- app_assoc.
    destruct N as [|N']; [lia|]. simpl. by rewrite Nat.sub_0_r.
Qed.

Lemma run_fetches_each_page_once_witness :
  serves_pages demo_env 2 2 demo_events /\
  events_processed demo_env 2 demo_events 1 (consistent (catalog demo_db)) /\
  blind (consistent (catalog demo_db)) /\
  consistent (catalog demo_db) demo_state /\
  exists rs st',
    EventbriteLoader.run demo_env 1 2 demo_state = (Ok tt, st') /\
    events_requests (trace st')
    = (events_requests (trace demo_state)
       ++ (page_request demo_env rs <$> seq 1 2))%list.
Proof.
  assert (Hstart : consistent (catalog demo_db) demo_state).
  { split; [reflexivity|]. intros t cols Hc.
    unfold demo_state in Hc. cbn [self_columns] in Hc.
    by rewrite lookup_empty in Hc. }
  split; [exact demo_serves_pages|].
  split; [exact demo_events_processed|].
  split; [apply consistent_blind|].
  split; [exact Hstart|].
  apply (run_fetches_each_page_once demo_env 2 2 demo_events 1 2
           (consistent (catalog demo_db)) demo_state);
    [lia|lia|lia|exact demo_serves_pages|exact demo_events_processed
    |apply consistent_blind|exact Hstart].
Defined.

(** * Further properties of the gateway *)

Lemma added_app (st st' : state) (d : list io) :
  trace st' = (trace st ++ d)%list -> added st st' = d.
Proof. intros H. unfold added. rewrite H. by rewrite drop_app_length. Qed.

(** X1. Once the columns of a table have been looked up they are served
    from the cache: a later lookup returns the same list, sends no query
    and leaves the state as it is, whatever the catalog has become. *)
Theorem table_columns_served_from_cache
        (env : Env) (table : string) (st : state)
        (cat : gmap string (list string)) :
  let first := Database.table_columns env table st in
  let later := with_catalog cat first.2 in
  first.1 = Ok (known_columns st table) /\
  Database.table_columns env table later = (first.1, later).
Proof.
  intros first later. unfold later, first. clear first later.
  rewrite table_columns_eval.
  split; [done|]. rewrite table_columns_eval. simpl fst. simpl snd.
  assert (Hc : cache_after st table !! table = Some (known_columns st table)).
  { unfold cache_after, known_columns.
    destruct (self_columns st !! table) as [c|] eqn:Hc; [done|].
    by rewrite lookup_insert_eq. }
  set (st2 := with_catalog cat (after_lookup env st table)).
  assert (Hl : self_columns st2 !! table = Some (known_columns st table))
    by exact Hc.
  unfold after_lookup at 1. unfold known_columns at 1, lookup_io at 1,
    cache_after at 1. rewrite Hl. by rewrite app_nil_r.
Qed.

Lemma rows_of_with_rows_ne (d : database) (t t' : string) (rows : list dict) :
  t <> t' -> rows_of (with_rows d t rows) t' = rows_of d t'.
Proof.
  intros Hne. unfold rows_of, with_rows. simpl. by rewrite lookup_insert_ne.
Qed.

Lemma rows_of_with_rows_eq (d : database) (t : string) (rows : list dict) :
  rows_of (with_rows d t rows) t = rows.
Proof. unfold rows_of, with_rows. simpl. by rewrite lookup_insert_eq. Qed.

Lemma filter_after_remove {A : Type} (f : A -> bool) (l : list A) :
  List.filter f (List.filter (fun x => negb (f x)) l) = [].
Proof.
  induction l as [|a l IH]; [done|]. simpl.
  destruct (f a) eqn:Hf; simpl; [done|]. by rewrite Hf.
Qed.

Lemma delete_item_eval (env : Env) (table : string) (item_id : pyval)
      (secondary : option dict) (st : state) :
  let conds := (Database.id_cond env item_id
                ++ Database.secondary_conds env secondary)%list in
  Database.delete_item env table item_id secondary st
  = (Ok tt,
     {| self_columns := self_columns st;
        db := with_rows (db st) table
                (List.filter (fun r => negb (selects env conds r))
                             (rows_of (db st) table));
        trace := trace st ++ [Execute (DeleteWhere (PG_SCHEMA env) table conds) [];
                              Commit];
        requests := requests st; clock_reads := clock_reads st |}).
Proof.
  intros conds. unfold Database.delete_item, Database.run_query,
    cursor_execute, commit, bind, emit, get_state, lift, set_db. simpl.
  by rewrite <- app_assoc.
Qed.

Lemma known_columns_same (st st' : state) (table : string) :
  self_columns st' = self_columns st -> catalog (db st') = catalog (db st) ->
  known_columns st' table = known_columns st table.
Proof. intros Hc Hd. unfold known_columns. by rewrite Hc, Hd. Qed.

(** X3. Delete-then-insert, for an identifier without a quote: after
    [delete_item] by the identifier, [load_item] of a record whose
    recognised [id] prints as that identifier leaves exactly one row with
    the identifier, the recognised fields of the record, whatever the
    table held before, provided the driver and the engine take the row.
    When they do not, the call raises, the delete has been committed
    already, and no row with the identifier is left. *)
Theorem delete_then_load_leaves_one_row
        (env : Env) (item : dict) (table : string) (item_id : pyval)
        (st : state) :
  NoDup (keys item) ->
  quote_free (str env item_id) = true ->
  let kept := recognised (known_columns st table) item in
  holds env kept ("id", str env item_id) = true ->
  let st1 := (Database.delete_item env table item_id None st).2 in
  let result := Database.load_item env item table st1 in
  let delete := Execute (DeleteWhere (PG_SCHEMA env) table
                                     [("id", str env item_id)]) [] in
  let insert := Execute (InsertRow (PG_SCHEMA env) table (keys kept) (length kept))
                        (values kept) in
  (insert_accepted env (db st1) table kept = true ->
   result.1 = Ok tt /\
   rows_with_id env (db result.2) table item_id = [kept]) /\
  (insert_accepted env (db st1) table kept = false ->
   result.1 = Raise DatabaseError /\
   rows_with_id env (db result.2) table item_id = [] /\
   added st result.2
   = ([delete; Commit] ++ lookup_io env st table ++ [insert])%list).
Proof.
  intros Hnd _ kept Hid st1 result delete insert.
  assert (Hst1 : st1 = (Database.delete_item env table item_id None st).2)
    by done.
  rewrite delete_item_eval in Hst1. cbn [snd] in Hst1.
  change (Database.id_cond env item_id ++ Database.secondary_conds env None)%list
    with (Database.id_cond env item_id) in Hst1.
  assert (Hcols : known_columns st1 table = known_columns st table).
  { rewrite Hst1. by apply known_columns_same. }
  assert (Hlook : lookup_io env st1 table = lookup_io env st table).
  { rewrite Hst1. unfold lookup_io. by cbn [self_columns]. }
  assert (Hgone : List.filter (selects env (Database.id_cond env item_id))
                              (rows_of (db st1) table) = []).
  { rewrite Hst1. cbn [db]. rewrite rows_of_with_rows_eq.
    apply filter_after_remove. }
  assert (Htrace : trace st1 = (trace st ++ [delete; Commit])%list)
    by (by rewrite Hst1).
  unfold result. rewrite load_item_outcome by done.
  rewrite Hcols, Hlook. fold kept insert.
  split; intros ->; cbn [fst snd db trace]; (split; [done|]).
  - unfold rows_with_id. rewrite rows_of_with_rows_eq, List.filter_app, Hgone.
    simpl. unfold selects, Database.id_cond. simpl. by rewrite Hid.
  - split; [exact Hgone|].
    apply added_app. by rewrite Htrace, <- !app_assoc.
Qed.

Lemma delete_then_load_leaves_one_row_witness :
  let item := [("id", VStr "v1"); ("city", VStr "Reston"); ("zip", VStr "20190")] in
  let st1 := (Database.delete_item unique_env "venues" (VStr "v1") None
                                   venue_state).2 in
  NoDup (keys item) /\
  quote_free (str unique_env (VStr "v1")) = true /\
  insert_accepted unique_env (db st1) "venues"
                  (recognised (known_columns venue_state "venues") item) = true /\
  rows_with_id unique_env
    (db (Database.load_item unique_env item "venues" st1).2) "venues" (VStr "v1")
  = [[("id", VStr "v1"); ("city", VStr "Reston")]].
Proof.
  intros item st1.
  assert (Hnd : NoDup (keys item)).
  { refine (bool_decide_unpack _ _). vm_compute. exact I. }
  assert (Hq : quote_free (str unique_env (VStr "v1")) = true) by reflexivity.
  assert (Hacc : insert_accepted unique_env (db st1) "venues"
                   (recognised (known_columns venue_state "venues") item) = true)
    by (vm_compute; reflexivity).
  split; [exact Hnd|]. split; [exact Hq|]. split; [exact Hacc|].
  destruct (delete_then_load_leaves_one_row unique_env item "venues" (VStr "v1")
              venue_state Hnd Hq) as [Hyes _]; [vm_compute; reflexivity|].
  destruct (Hyes Hacc) as [_ Hrows]. unfold st1. rewrite Hrows.
  vm_compute. reflexivity.
Defined.

(** X6. An empty batch: [load_items] looks the columns up, then fails on
    [items[0]] with IndexError; nothing is executed or committed and the
    store is as before. *)
Theorem load_items_empty_batch (env : Env) (table : string) (st : state) :
  let result := Database.load_items env [] table st in
  result.1 = Raise IndexError /\
  added st result.2 = lookup_io env st table /\
  db result.2 = db st /\
  self_columns result.2 !! table = Some (known_columns st table).
Proof.
  intros result. unfold result, Database.load_items, bind.
  rewrite table_columns_eval. unfold raise. cbn [fst snd].
  split; [done|]. split; [by apply added_app|]. split; [done|].
  unfold after_lookup, cache_after, known_columns. cbn [self_columns].
  destruct (self_columns st !! table) as [c|] eqn:Hc; [done|].
  by rewrite lookup_insert_eq.
Qed.

(** * Further properties of the loader *)

Lemma parse_truthy (answer : Z * pyval) :
  truthy (Eventbrite.parse answer) = true <->
  answer.1 = 200 /\ truthy answer.2 = true.
Proof.
  unfold Eventbrite.parse. destruct (Z.eqb_spec answer.1 200) as [He|Hne].
  - tauto.
  - simpl. split; [discriminate|tauto].
Qed.

Lemma fetch_rule_holds (env : Env) (st : state) (r : request) (e : exn)
      (result : outcome pyval * state) :
  (let first := Eventbrite.parse (respond env (requests st) r) in
   result = if truthy first then (Ok first, sent r st)
            else (Raise e, slept 3600 (sent r st))) \/
  (let first := Eventbrite.parse (respond env (requests st) r) in
   result = if truthy first then (Ok first, sent r st)
            else (Ok (Eventbrite.parse (respond env (S (requests st)) r)),
                  sent r (slept 3600 (sent r st)))) ->
  fetch_rule env st r result.
Proof.
  intros Hres. unfold fetch_rule. cbv zeta in *. split.
  - intros H200 Ht.
    assert (Hp : truthy (Eventbrite.parse (respond env (requests st) r)) = true)
      by by apply parse_truthy.
    assert (Hb : Eventbrite.parse (respond env (requests st) r)
                 = (respond env (requests st) r).2).
    { unfold Eventbrite.parse. by rewrite H200. }
    destruct Hres as [-> | ->]; by rewrite Hp, Hb.
  - intros Hbad.
    assert (Hp : truthy (Eventbrite.parse (respond env (requests st) r)) = false).
    { destruct (truthy (Eventbrite.parse _)) eqn:Hp; [|done].
      apply parse_truthy in Hp as [H1 H2]. destruct Hbad; congruence. }
    destruct Hres as [-> | ->]; rewrite Hp; cbn [snd].
    + rewrite (added_app _ _ [Request r; Sleep 3600]); [reflexivity|].
      simpl. by rewrite <- app_assoc.
    + rewrite (added_app _ _ [Request r; Sleep 3600; Request r]); [reflexivity|].
      simpl. by rewrite <- !app_assoc.
Qed.

(** X7. The three fetch wrappers pause exactly when the first answer is
    unusable: a 200 whose body is not empty is returned as it is after one
    request and no pause; any other status, and also a 200 with an empty
    body, is followed by the pause of 3600. *)
Theorem fetch_pauses_only_on_unusable_answer (env : Env) (st : state) :
  (forall event_id page,
      fetch_rule env st (GetAttendees event_id page)
                 (EventbriteLoader.get_attendees env event_id page st)) /\
  (forall venue_id page,
      fetch_rule env st (GetVenue venue_id page)
                 (EventbriteLoader.get_venue env venue_id page st)) /\
  (forall start rs page,
      Eventbrite.range_param start = Ok rs ->
      fetch_rule env st (GetEvents (EVENTBRITE_ORG env) rs None page)
                 (EventbriteLoader.get_events env start page st)).
Proof.
  split; [|split].
  - intros event_id page. apply (fetch_rule_holds _ _ _ TypeError). right.
    apply get_attendees_eval.
  - intros venue_id page. apply (fetch_rule_holds _ _ _ (NameError "event_id")).
    left. apply get_venue_eval.
  - intros start rs page Hrs. apply (fetch_rule_holds _ _ _ TypeError). left.
    by apply get_events_eval.
Qed.

Lemma dict_get_set_ne (k k' : string) (v : pyval) (d : dict) :
  k <> k' -> dict_get k (dict_set k' v d) = dict_get k d.
Proof.
  intros Hne. induction d as [|[k0 v0] d IH]; simpl.
  - destruct (String.eqb_spec k k'); [done|done].
  - destruct (String.eqb_spec k' k0) as [->|Hk0]; simpl.
    + destruct (String.eqb_spec k k0); [done|done].
    + destruct (String.eqb_spec k k0); [done|apply IH].
Qed.

Lemma keys_dict_set (k : string) (v : pyval) (d : dict) :
  keys (dict_set k v d) = if bool_decide (k ∈ keys d) then keys d
                          else (keys d ++ [k])%list.
Proof.
  unfold keys. induction d as [|[k0 v0] d IH].
  - case_bool_decide as Hk; [by apply elem_of_nil in Hk|done].
  - cbn [dict_set]. destruct (String.eqb_spec k k0) as [->|Hne].
    + rewrite bool_decide_eq_true_2 by (rewrite fmap_cons; left). done.
    + rewrite !fmap_cons, IH. cbn [fst].
      destruct (decide (k ∈ d.*1)) as [Hin|Hin].
      * rewrite !bool_decide_eq_true_2; [done|by right|done].
      * rewrite !bool_decide_eq_false_2; [done| |done].
        rewrite elem_of_cons. tauto.
Qed.

Lemma NoDup_keys_dict_set (k : string) (v : pyval) (d : dict) :
  NoDup (keys d) -> NoDup (keys (dict_set k v d)).
Proof.
  intros Hnd. rewrite keys_dict_set. case_bool_decide as Hk; [done|].
  apply NoDup_app. split; [done|]. split.
  - intros x Hx Hxk. apply list_elem_of_singleton in Hxk as ->. done.
  - apply NoDup_singleton.
Qed.

Lemma subscript_dict (d : dict) (k : string) (x : pyval) :
  dict_get k d = Some x -> subscript (VDict d) k = Ok x.
Proof. intros H. unfold subscript. by rewrite H. Qed.

(** X8. [load_event] on a payload with the parts it reads: the record
    handed to [load_item] for the events table has the two instants parsed
    from [start.utc] and [end.utc], the texts of [description] and [name]
    in place of their wrappers, the clock reading as [load_datetime], and
    every other field of the payload as it came. *)
Theorem load_event_record
        (env : Env) (d : dict) (start end_ : Z) (description name : pyval)
        (st : state) :
  event_shape env d start end_ description name ->
  let item := event_record d start end_ description name
                           (clock env (clock_reads st)) in
  EventbriteLoader.load_event env (VDict d) st
  = Database.load_item env item "events" (tick st) /\
  dict_get "start_datetime" item = Some (VTime start) /\
  dict_get "end_datetime" item = Some (VTime end_) /\
  dict_get "description" item = Some description /\
  dict_get "name" item = Some name /\
  dict_get "load_datetime" item = Some (VTime (clock env (clock_reads st))) /\
  (forall k, k ∉ ["start_datetime"; "end_datetime"; "description"; "name";
                  "load_datetime"] ->
             dict_get k item = dict_get k d) /\
  (NoDup (keys d) -> NoDup (keys item)).
Proof.
  intros (s & us & e & ue & dd & n & Hs & Hus & Hstart & He & Hue & Hend
          & Hd & Hdesc & Hn & Hname) item.
  split.
  { unfold EventbriteLoader.load_event, deepcopy, EventbriteLoader.datetime_of.
    cbv zeta.
    rewrite (subscript_dict _ _ _ Hs), bind_lift_ok, Hus, bind_lift_ok, Hstart,
      bind_lift_ok. cbn [store]. rewrite bind_lift_ok.
    rewrite (subscript_dict _ "end" e), bind_lift_ok, Hue, bind_lift_ok, Hend,
      bind_lift_ok by (by rewrite dict_get_set_ne by done).
    cbn [store]. rewrite bind_lift_ok.
    rewrite (subscript_dict _ "description" dd), bind_lift_ok, Hdesc, bind_lift_ok
      by (by rewrite !dict_get_set_ne by done).
    cbn [store]. rewrite bind_lift_ok.
    rewrite (subscript_dict _ "name" n), bind_lift_ok, Hname, bind_lift_ok
      by (by rewrite !dict_get_set_ne by done).
    cbn [store]. rewrite bind_lift_ok. reflexivity. }
  unfold item, event_record.
  split; [rewrite !dict_get_set_ne by done; apply dict_get_set|].
  split; [rewrite !dict_get_set_ne by done; apply dict_get_set|].
  split; [rewrite !dict_get_set_ne by done; apply dict_get_set|].
  split; [rewrite !dict_get_set_ne by done; apply dict_get_set|].
  split; [apply dict_get_set|].
  split.
  - intros k Hk. rewrite !not_elem_of_cons in Hk.
    destruct Hk as (H1 & H2 & H3 & H4 & H5 & _).
    by rewrite !dict_get_set_ne by done.
  - intros Hnd. by repeat apply NoDup_keys_dict_set.
Qed.

Lemma load_event_record_witness :
  let d := [("id", VStr "e1");
            ("name", VDict [("text", VStr "Purim party")]);
            ("description", VDict [("text", VStr "Bring a costume")]);
            ("start", VDict [("utc", VStr "2019-03-20T23:00:00Z")]);
            ("end", VDict [("utc", VStr "2019-03-21T02:00:00Z")]);
            ("venue_id", VNone); ("capacity", VInt 120)] in
  event_shape demo_env d 1553122800000000 1553133600000000
              (VStr "Bring a costume") (VStr "Purim party") /\
  EventbriteLoader.load_event demo_env (VDict d) demo_state
  = Database.load_item demo_env
      (event_record d 1553122800000000 1553133600000000
                    (VStr "Bring a costume") (VStr "Purim party")
                    (clock demo_env (clock_reads demo_state)))
      "events" (tick demo_state).
Proof.
  intros d.
  assert (Hshape : event_shape demo_env d 1553122800000000 1553133600000000
                               (VStr "Bring a costume") (VStr "Purim party")).
  { do 6 eexists. repeat split; reflexivity. }
  split; [exact Hshape|].
  apply (load_event_record demo_env d _ _ _ _ demo_state Hshape).
Defined.

Lemma contains_dict (k : string) (p : dict) :
  contains k (VDict p) = Ok (bool_decide (is_Some (dict_get k p))).
Proof.
  unfold contains. f_equal. apply bool_decide_ext. split.
  - apply dict_get_key.
  - intros [v Hv]. destruct (decide (k ∈ keys p)) as [Hin|Hin]; [done|].
    by rewrite dict_get_not_key in Hv.
Qed.

Lemma copy_field_dict (p : dict) (k : string) (d : dict) (st : state) :
  EventbriteLoader.copy_field (VDict p) k (VDict d) st
  = (Ok (VDict (copy_from p k d)), st).
Proof.
  unfold EventbriteLoader.copy_field, copy_from, bind, lift.
  rewrite contains_dict. destruct (dict_get k p) as [v|] eqn:Hk.
  - rewrite bool_decide_eq_true_2 by eauto.
    by rewrite (subscript_dict _ _ _ Hk).
  - rewrite bool_decide_eq_false_2; [done|]. by intros [v Hv].
Qed.

Lemma dict_get_copy_from (p : dict) (k k' : string) (d : dict) :
  dict_get k (copy_from p k' d)
  = if String.eqb k k'
    then match dict_get k p with
         | Some v => Some v
         | None => dict_get k d
         end
    else dict_get k d.
Proof.
  unfold copy_from. destruct (String.eqb_spec k k') as [->|Hne].
  - destruct (dict_get k' p); [apply dict_get_set|done].
  - destruct (dict_get k' p); [by apply dict_get_set_ne|done].
Qed.

Lemma NoDup_keys_copy_from (p : dict) (k : string) (d : dict) :
  NoDup (keys d) -> NoDup (keys (copy_from p k d)).
Proof.
  unfold copy_from. destruct (dict_get k p); [apply NoDup_keys_dict_set|done].
Qed.

Lemma set_cost_dict (env : Env) (d : dict) (costs gross value cost : pyval)
      (st : state) :
  dict_get "costs" d = Some costs -> subscript costs "gross" = Ok gross ->
  subscript gross "major_value" = Ok value -> float env value = Ok cost ->
  EventbriteLoader.set_cost env (VDict d) st
  = (Ok (VDict (dict_set "cost" cost d)), st).
Proof.
  intros Hc Hg Hv Hf. unfold EventbriteLoader.set_cost.
  by rewrite (subscript_dict _ _ _ Hc), bind_lift_ok, Hg, bind_lift_ok, Hv,
    bind_lift_ok, Hf, bind_lift_ok.
Qed.

(** X9. [load_attendee] on a payload with a profile and a gross cost: each
    of [name], [first_name], [last_name], [email] is taken from the profile
    when the profile has it and is otherwise left as the payload has it
    (possibly absent); [cost] is the parsed gross value; [load_datetime]
    is the clock reading; every other field is as it came. *)
Theorem load_attendee_record
        (env : Env) (d p : dict) (cost : pyval) (st : state) :
  attendee_shape env d p cost ->
  let item := attendee_record d p cost (clock env (clock_reads st)) in
  EventbriteLoader.load_attendee env (VDict d) st
  = Database.load_item env item "attendees" (tick st) /\
  (forall k, k ∈ ["name"; "first_name"; "last_name"; "email"] ->
             dict_get k item = match dict_get k p with
                               | Some v => Some v
                               | None => dict_get k d
                               end) /\
  dict_get "cost" item = Some cost /\
  dict_get "load_datetime" item = Some (VTime (clock env (clock_reads st))) /\
  (forall k, k ∉ ["name"; "first_name"; "last_name"; "email"; "cost";
                  "load_datetime"] ->
             dict_get k item = dict_get k d) /\
  (NoDup (keys d) -> NoDup (keys item)).
Proof.
  intros (Hp & costs & gross & value & Hc & Hg & Hv & Hf) item.
  split.
  { unfold EventbriteLoader.load_attendee, deepcopy. cbv zeta.
    rewrite (subscript_dict _ _ _ Hp), bind_lift_ok.
    rewrite (bind_ok _ _ _ _ _ (copy_field_dict _ _ _ _)).
    rewrite (bind_ok _ _ _ _ _ (copy_field_dict _ _ _ _)).
    rewrite (bind_ok _ _ _ _ _ (copy_field_dict _ _ _ _)).
    rewrite (bind_ok _ _ _ _ _ (copy_field_dict _ _ _ _)).
    assert (Hc' : dict_get "costs"
                    (copy_from p "email"
                       (copy_from p "last_name"
                          (copy_from p "first_name" (copy_from p "name" d))))
                  = Some costs) by (by rewrite !dict_get_copy_from).
    rewrite (bind_ok _ _ _ _ _
               (set_cost_dict env _ costs gross value cost _ Hc' Hg Hv Hf)).
    reflexivity. }
  unfold item, attendee_record.
  split.
  { intros k Hk. rewrite !elem_of_cons in Hk.
    rewrite !dict_get_set_ne
      by (intros ->; destruct Hk as [Hk|[Hk|[Hk|[Hk|Hk]]]];
          try discriminate; by apply elem_of_nil in Hk).
    rewrite !dict_get_copy_from.
    destruct Hk as [->|[->|[->|[->|Hk]]]]; [done..|by apply elem_of_nil in Hk]. }
  split; [rewrite dict_get_set_ne by done; apply dict_get_set|].
  split; [apply dict_get_set|].
  split.
  - intros k Hk. rewrite !not_elem_of_cons in Hk.
    destruct Hk as (H1 & H2 & H3 & H4 & H5 & H6 & _).
    rewrite !dict_get_set_ne by done. rewrite !dict_get_copy_from.
    by rewrite !(proj2 (String.eqb_neq _ _)) by done.
  - intros Hnd. by repeat first [apply NoDup_keys_dict_set
                                 | apply NoDup_keys_copy_from].
Qed.

Lemma load_attendee_record_witness :
  let d := [("id", VStr "a1"); ("event_id", VStr "e1"); ("email", VStr "old@example.org");
            ("profile", VDict [("name", VStr "Ann Lee"); ("email", VStr "ann@example.org")]);
            ("costs", VDict [("gross", VDict [("major_value", VStr "12.50")])])] in
  let p := [("name", VStr "Ann Lee"); ("email", VStr "ann@example.org")] in
  attendee_shape demo_env d p (VFloat (25 # 2)) /\
  dict_get "email" (attendee_record d p (VFloat (25 # 2))
                                    (clock demo_env (clock_reads demo_state)))
  = Some (VStr "ann@example.org").
Proof.
  intros d p.
  assert (Hshape : attendee_shape demo_env d p (VFloat (25 # 2))).
  { split; [reflexivity|]. do 3 eexists. repeat split; reflexivity. }
  split; [exact Hshape|].
  destruct (load_attendee_record demo_env d p _ demo_state Hshape)
    as (_ & Hfields & _).
  rewrite Hfields; [reflexivity|]. rewrite !elem_of_cons. tauto.
Defined.

Lemma dict_get_flatten_step (a : dict) (k : string) :
  forall (ks : list string) (acc : dict),
    (forall x, x ∈ ks -> is_Some (dict_get x a)) ->
    dict_get k (foldl (fun acc k => match dict_get k a with
                                    | Some v => dict_set k v acc
                                    | None => acc
                                    end) acc ks)
    = if bool_decide (k ∈ ks) then dict_get k a else dict_get k acc.
Proof.
  induction ks as [|k0 ks IH]; intros acc Hks.
  - rewrite bool_decide_eq_false_2 by apply not_elem_of_nil. done.
  - cbn [foldl]. rewrite IH by (intros x Hx; apply Hks; by right).
    destruct (Hks k0) as [v Hv]; [left|]. rewrite Hv.
    destruct (decide (k ∈ ks)) as [Hin|Hin].
    + rewrite !bool_decide_eq_true_2; [done|by right|done].
    + rewrite (bool_decide_eq_false_2 (k ∈ ks)) by done.
      destruct (decide (k = k0)) as [->|Hne].
      * rewrite bool_decide_eq_true_2 by left. by rewrite dict_get_set.
      * rewrite bool_decide_eq_false_2 by (rewrite elem_of_cons; tauto).
        by apply dict_get_set_ne.
Qed.

(** After the loop a field is the address's when the address has it, the
    venue's own otherwise. *)
Lemma dict_get_flattened (a d : dict) (k : string) :
  dict_get k (flattened a d)
  = if bool_decide (k ∈ keys a) then dict_get k a else dict_get k d.
Proof.
  unfold flattened. apply dict_get_flatten_step.
  intros x Hx. by apply dict_get_key.
Qed.

Lemma flatten_address_eval (a : dict) (st : state) :
  forall (ks : list string) (acc : dict),
    (forall x, x ∈ ks -> is_Some (dict_get x a)) ->
    "address" ∉ ks ->
    dict_get "address" acc = Some (VDict a) ->
    EventbriteLoader.flatten_address (VStr <$> ks) (VDict acc) st
    = (Ok (VDict (foldl (fun acc k => match dict_get k a with
                                      | Some v => dict_set k v acc
                                      | None => acc
                                      end) acc ks)), st).
Proof.
  induction ks as [|k ks IH]; intros acc Hks Hno Hacc; [done|].
  apply not_elem_of_cons in Hno as [Hk Hno].
  destruct (Hks k) as [v Hv]; [left|].
  rewrite fmap_cons. cbn [EventbriteLoader.flatten_address foldl].
  rewrite (subscript_dict _ _ _ Hacc), bind_lift_ok.
  cbn [subscript_by]. rewrite (subscript_dict _ _ _ Hv), bind_lift_ok.
  cbn [store_by store]. rewrite bind_lift_ok, Hv.
  apply IH; [intros x Hx; apply Hks; by right|done|].
  by rewrite dict_get_set_ne.
Qed.

Lemma to_float_dict (env : Env) (k : string) (d : dict) (x f : pyval) (st : state) :
  dict_get k d = Some x -> float env x = Ok f ->
  EventbriteLoader.to_float env k (VDict d) st = (Ok (VDict (dict_set k f d)), st).
Proof.
  intros Hk Hf. unfold EventbriteLoader.to_float.
  by rewrite (subscript_dict _ _ _ Hk), bind_lift_ok, Hf, bind_lift_ok.
Qed.

(** X10. [load_venue] on a payload with an address: every field of the
    address becomes a field of the record, over a field of the venue with
    the same name; latitude and longitude are read after that and replaced
    by their parsed values; the other fields of the venue stay, the nested
    address among them. The clock is not read. *)
Theorem load_venue_record
        (env : Env) (d a : dict) (latitude longitude : pyval) (st : state) :
  venue_shape env d a latitude longitude ->
  let item := venue_record d a latitude longitude in
  EventbriteLoader.load_venue env (VDict d) st
  = Database.load_item env item "venues" st /\
  dict_get "latitude" item = Some latitude /\
  dict_get "longitude" item = Some longitude /\
  (forall k, k <> "latitude" -> k <> "longitude" ->
             dict_get k item
             = if bool_decide (k ∈ keys a) then dict_get k a else dict_get k d) /\
  dict_get "address" item = Some (VDict a).
Proof.
  intros (Ha & Hno & x & y & Hx & Hfx & Hy & Hfy) item.
  split.
  { unfold EventbriteLoader.load_venue, deepcopy. cbv zeta.
    rewrite (subscript_dict _ _ _ Ha), bind_lift_ok. cbn [iterate].
    rewrite bind_lift_ok.
    rewrite (bind_ok _ _ _ _ _
               (flatten_address_eval a st (keys a) d
                  (fun x Hx => dict_get_key x a Hx) Hno Ha)).
    fold (flattened a d).
    rewrite (bind_ok _ _ _ _ _ (to_float_dict env _ _ _ _ st Hx Hfx)).
    assert (Hy' : dict_get "longitude" (dict_set "latitude" latitude (flattened a d))
                  = Some y) by (by rewrite dict_get_set_ne).
    rewrite (bind_ok _ _ _ _ _ (to_float_dict env _ _ _ _ st Hy' Hfy)).
    reflexivity. }
  unfold item, venue_record.
  split; [rewrite dict_get_set_ne by done; apply dict_get_set|].
  split; [apply dict_get_set|].
  split.
  - intros k H1 H2. rewrite !dict_get_set_ne by done. apply dict_get_flattened.
  - rewrite !dict_get_set_ne by done. rewrite dict_get_flattened.
    by rewrite bool_decide_eq_false_2.
Qed.

Lemma load_venue_record_witness :
  let d := [("id", VStr "v1"); ("name", VStr "Main hall"); ("city", VStr "?");
            ("address", VDict [("city", VStr "Fairfax"); ("region", VStr "VA")]);
            ("latitude", VStr "38.85"); ("longitude", VStr "-77.30")] in
  let a := [("city", VStr "Fairfax"); ("region", VStr "VA")] in
  venue_shape demo_env d a (VFloat (777 # 20)) (VFloat (-773 # 10)) /\
  dict_get "city" (venue_record d a (VFloat (777 # 20)) (VFloat (-773 # 10)))
  = Some (VStr "Fairfax").
Proof.
  intros d a.
  assert (Hshape : venue_shape demo_env d a (VFloat (777 # 20)) (VFloat (-773 # 10))).
  { split; [reflexivity|]. split.
    - refine (bool_decide_unpack _ _). vm_compute. exact I.
    - do 2 eexists. repeat split; reflexivity. }
  split; [exact Hshape|].
  destruct (load_venue_record demo_env d a _ _ demo_state Hshape)
    as (_ & _ & _ & Hfields & _).
  rewrite Hfields by done. reflexivity.
Defined.

(** X11. A venue without a usable address cannot be loaded: a missing
    [address] raises KeyError, a null one TypeError when the loop starts,
    and a venue that is [None] TypeError at once. Nothing is sent and the
    state is as before. *)
Theorem load_venue_needs_address (env : Env) (d : dict) (st : state) :
  (dict_get "address" d = None ->
   EventbriteLoader.load_venue env (VDict d) st = (Raise KeyError, st)) /\
  (dict_get "address" d = Some VNone ->
   EventbriteLoader.load_venue env (VDict d) st = (Raise TypeError, st)) /\
  EventbriteLoader.load_venue env VNone st = (Raise TypeError, st).
Proof.
  unfold EventbriteLoader.load_venue, deepcopy, bind, lift, subscript.
  split; [|split].
  - by intros ->.
  - by intros ->.
  - done.
Qed.



(** ** What a load stays within *)

Lemma within_same {A : Type} (ok : io -> bool) (m : M A) :
  (forall st, trace (m st).2 = trace st) -> within ok m.
Proof. intros H st. exists []. by rewrite H, app_nil_r. Qed.

Lemma within_ret {A : Type} ok (a : A) : within ok (ret a).
Proof. by apply within_same. Qed.

Lemma within_raise {A : Type} ok (e : exn) : within ok (@raise A e).
Proof. by apply within_same. Qed.

Lemma within_out_of_fuel {A : Type} ok : within ok (@out_of_fuel A).
Proof. by apply within_same. Qed.

Lemma within_lift {A : Type} ok (o : outcome A) : within ok (lift o).
Proof. by apply within_same. Qed.

Lemma within_get_state ok : within ok get_state.
Proof. by apply within_same. Qed.

Lemma within_set_db ok (d : database) : within ok (set_db d).
Proof. by apply within_same. Qed.

Lemma within_set_columns ok (c : gmap string (list string)) :
  within ok (set_columns c).
Proof. by apply within_same. Qed.

Lemma within_read_clock ok (env : Env) : within ok (read_clock env).
Proof. by apply within_same. Qed.

Lemma within_emit ok (e : io) : ok e = true -> within ok (emit e).
Proof. intros He st. exists [e]. split; [done|]. simpl. by rewrite He. Qed.

Lemma within_http_get ok (env : Env) (r : request) :
  ok (Request r) = true -> within ok (http_get env r).
Proof.
  intros He st. exists [Request r]. split; [done|]. simpl. by rewrite He.
Qed.

Lemma within_bind {A B : Type} ok (m : M A) (k : A -> M B) :
  within ok m -> (forall a, within ok (k a)) -> within ok (bind m k).
Proof.
  intros Hm Hk st. unfold bind.
  destruct (Hm st) as (d1 & Ht1 & Ho1).
  destruct (m st) as [[a| |] st1]; simpl in Ht1; [|by exists d1..].
  destruct (Hk a st1) as (d2 & Ht2 & Ho2).
  exists (d1 ++ d2)%list. rewrite Ht2, Ht1, <- app_assoc. split; [done|].
  by rewrite forallb_app, Ho1, Ho2.
Qed.

Lemma within_for_each {A : Type} ok (xs : list A) (body : A -> M unit) :
  (forall x, within ok (body x)) -> within ok (for_each xs body).
Proof.
  intros Hb. induction xs as [|x xs IH]; simpl.
  - apply within_ret.
  - apply within_bind; [apply Hb|]. intros _. apply IH.
Qed.

Create HintDb within.
#[export] Hint Resolve within_ret within_raise within_out_of_fuel within_lift
  within_get_state within_set_db within_set_columns within_read_clock : within.

Ltac in_list :=
  first [ assumption
        | solve [repeat first [apply list_elem_of_here
                              | apply list_elem_of_further]] ].

Ltac step_ok :=
  first [ reflexivity
        | apply bool_decide_eq_true_2; repeat split;
          first [ done | lia | in_list ] ].

Ltac within_step :=
  lazymatch goal with
  | |- within _ (bind _ _) => apply within_bind; [|intros ?]
  | |- within _ (for_each _ _) => apply within_for_each; intros ?
  | |- within _ (emit _) => apply within_emit; step_ok
  | |- within _ (http_get _ _) => apply within_http_get; step_ok
  | |- within _ (match ?x with _ => _ end) => destruct x
  | |- _ => solve [auto with within nocore]
  end.

Ltac within_tac := cbv zeta; repeat within_step.

Section Load.
Context (env : Env).

Local Abbreviation load_frame := (within (run_step env)).

Lemma within_sleep_60 : load_frame (sleep 60).
Proof. unfold sleep. within_tac. Qed.

Lemma within_sleep_3600 : load_frame (sleep 3600).
Proof. unfold sleep. within_tac. Qed.

Lemma within_commit : load_frame commit.
Proof. unfold commit. within_tac. Qed.

Lemma within_utcnow : load_frame (utcnow env).
Proof. unfold utcnow. within_tac. Qed.

Lemma within_now : load_frame (now env).
Proof. unfold now. within_tac. Qed.

Hint Resolve within_sleep_60 within_sleep_3600 within_commit within_utcnow
  within_now : within.

Lemma within_cursor_execute (s : stmt) (params : list pyval) :
  run_step env (Execute s params) = true ->
  load_frame (cursor_execute env s params).
Proof.
  intros He. unfold cursor_execute.
  apply within_bind; [by apply within_emit|]. intros _. within_tac.
Qed.

Lemma within_read_sql (s : stmt) :
  run_step env (ReadSql s) = true -> load_frame (read_sql env s).
Proof.
  intros He. unfold read_sql.
  apply within_bind; [by apply within_emit|]. intros _. within_tac.
Qed.

Lemma within_table_columns (table : string) :
  table ∈ run_tables -> load_frame (Database.table_columns env table).
Proof.
  intros Ht. unfold Database.table_columns, Database.get_columns. within_tac.
  apply within_read_sql. step_ok.
Qed.

Lemma within_load_item (item : dict) (table : string) :
  table ∈ run_tables -> load_frame (Database.load_item env item table).
Proof.
  intros Ht. unfold Database.load_item.
  apply within_bind; [by apply within_table_columns|]. intros columns.
  cbv zeta. apply within_bind; [|intros _; apply within_commit].
  apply within_cursor_execute. apply bool_decide_eq_true_2.
  split; [done|]. split; [done|].
  split; [unfold keys; by rewrite length_fmap|apply length_bound_values].
Qed.

Lemma within_delete_event (item_id : pyval) :
  load_frame (Database.delete_item env "events" item_id None).
Proof.
  unfold Database.delete_item, Database.run_query. cbv zeta.
  apply within_bind; [|intros _; apply within_commit].
  apply within_cursor_execute. apply bool_decide_eq_true_2.
  split; [done|]. by left.
Qed.

Lemma within_delete_attendee (item_id event_id : pyval) :
  load_frame (Database.delete_item env "attendees" item_id
                                   (Some [("event_id", event_id)])).
Proof.
  unfold Database.delete_item, Database.run_query. cbv zeta.
  apply within_bind; [|intros _; apply within_commit].
  apply within_cursor_execute. apply bool_decide_eq_true_2.
  split; [done|]. by right.
Qed.

Lemma within_get_item (item_id : pyval) (secondary : option dict) :
  load_frame (Database.get_item env "venues" item_id secondary).
Proof.
  unfold Database.get_item. cbv zeta.
  apply within_bind; [|intros df; within_tac].
  apply within_read_sql. step_ok.
Qed.

Lemma within_refresh_views : load_frame (Database.refresh_views env).
Proof.
  unfold Database.refresh_views, Database.MATERIALIZED_VIEWS,
    Database.refresh_view, Database.run_query. cbn [for_each].
  repeat (apply within_bind;
          [apply within_bind; [apply within_cursor_execute; step_ok
                              |intros _; apply within_commit]
          |intros _]).
  apply within_ret.
Qed.

Lemma within_last_event_load_date :
  load_frame (Database.last_event_load_date env).
Proof.
  unfold Database.last_event_load_date. cbv zeta.
  apply within_bind; [|intros df; within_tac].
  apply within_read_sql. step_ok.
Qed.

Hint Resolve within_delete_event within_delete_attendee within_get_item
  within_refresh_views within_last_event_load_date : within.

Lemma within_client_get_events (org_id : option pyval)
      (start last_modified page : pyval) :
  load_frame (Eventbrite.get_events env org_id start last_modified page).
Proof. unfold Eventbrite.get_events. within_tac. Qed.

Lemma within_client_get_attendees (event_id page : pyval) :
  load_frame (Eventbrite.get_attendees env event_id page).
Proof. unfold Eventbrite.get_attendees. within_tac. Qed.

Lemma within_client_get_venue (venue_id page : pyval) :
  load_frame (Eventbrite.get_venue env venue_id page).
Proof. unfold Eventbrite.get_venue. within_tac. Qed.

Hint Resolve within_client_get_events within_client_get_attendees
  within_client_get_venue : within.

Lemma within_get_events (start page : pyval) :
  load_frame (EventbriteLoader.get_events env start page).
Proof. unfold EventbriteLoader.get_events. within_tac. Qed.

Lemma within_get_attendees (event_id page : pyval) :
  load_frame (EventbriteLoader.get_attendees env event_id page).
Proof. unfold EventbriteLoader.get_attendees. within_tac. Qed.

Lemma within_get_venue (venue_id page : pyval) :
  load_frame (EventbriteLoader.get_venue env venue_id page).
Proof.
  unfold EventbriteLoader.get_venue, EventbriteLoader.unbound. within_tac.
Qed.

Lemma within_load_event (event : pyval) :
  load_frame (EventbriteLoader.load_event env event).
Proof.
  unfold EventbriteLoader.load_event. within_tac.
  apply within_load_item. in_list.
Qed.

Lemma within_copy_field (profile : pyval) (k : string) (a : pyval) :
  load_frame (EventbriteLoader.copy_field profile k a).
Proof. unfold EventbriteLoader.copy_field. within_tac. Qed.

Lemma within_set_cost (x : pyval) : load_frame (EventbriteLoader.set_cost env x).
Proof. unfold EventbriteLoader.set_cost. within_tac. Qed.

Hint Resolve within_get_events within_get_attendees within_get_venue
  within_load_event within_copy_field within_set_cost : within.

Lemma within_load_attendee (attendee : pyval) :
  load_frame (EventbriteLoader.load_attendee env attendee).
Proof.
  unfold EventbriteLoader.load_attendee. within_tac.
  apply within_load_item. in_list.
Qed.

Lemma within_flatten_address (ks : list pyval) (venue_ : pyval) :
  load_frame (EventbriteLoader.flatten_address ks venue_).
Proof.
  revert venue_. induction ks as [|key ks IH]; intros venue_; simpl.
  - apply within_ret.
  - within_tac.
Qed.

Lemma within_to_float (k : string) (x : pyval) :
  load_frame (EventbriteLoader.to_float env k x).
Proof. unfold EventbriteLoader.to_float. within_tac. Qed.

Hint Resolve within_load_attendee within_flatten_address within_to_float
  : within.

Lemma within_load_venue (venue : pyval) :
  load_frame (EventbriteLoader.load_venue env venue).
Proof.
  unfold EventbriteLoader.load_venue. within_tac.
  apply within_load_item. in_list.
Qed.

Hint Resolve within_load_venue : within.

Lemma within_run_attendee (event_id attendee : pyval) :
  load_frame (EventbriteLoader.run_attendee env event_id attendee).
Proof. unfold EventbriteLoader.run_attendee. within_tac. Qed.

Hint Resolve within_run_attendee : within.

Lemma within_attendees_loop (fuel : nat) (event_id attendees : pyval) :
  load_frame (EventbriteLoader.attendees_loop env fuel event_id attendees).
Proof.
  revert attendees. induction fuel as [|fuel IH]; intros attendees; simpl.
  - apply within_out_of_fuel.
  - within_tac.
Qed.

Lemma within_run_venue (event : pyval) :
  load_frame (EventbriteLoader.run_venue env event).
Proof. unfold EventbriteLoader.run_venue. within_tac. Qed.

Hint Resolve within_attendees_loop within_run_venue : within.

Lemma within_run_event (fuel : nat) (event : pyval) :
  load_frame (EventbriteLoader.run_event env fuel event).
Proof. unfold EventbriteLoader.run_event. within_tac. Qed.

Hint Resolve within_run_event : within.

Lemma within_events_loop (fuel_a fuel : nat) (start events : pyval) :
  load_frame (EventbriteLoader.events_loop env fuel_a fuel start events).
Proof.
  revert events. induction fuel as [|fuel IH]; intros events; simpl.
  - apply within_out_of_fuel.
  - within_tac.
Qed.

Lemma within_start_date : load_frame (EventbriteLoader.start_date env).
Proof. unfold EventbriteLoader.start_date. within_tac. Qed.

Hint Resolve within_events_loop within_start_date : within.

End Load.

(** X13. The calls a load is made of. Whatever the service answers and
    whatever the store holds, and whether [run] returns, raises or runs out
    of fuel, every call [run] makes is a request, a pause of 60 or of 3600,
    the DELETE template on events by [id] or on attendees by [id] and
    [event_id], the single-row INSERT template on events, attendees or
    venues, a REFRESH of one of the three views, a SELECT of column names,
    of a venue by [id] or of the last load time, or a commit, all in the
    configured schema: no order is loaded, and no batch insert, truncate,
    backup or revert is issued. The identifiers in the DELETE and SELECT
    texts are interpolated as the service gives them; what the engine makes
    of a text with a quote in it is not part of the statement. *)
Theorem run_stays_within (env : Env) (fuel_a fuel : nat) :
  within (run_step env) (EventbriteLoader.run env fuel_a fuel).
Proof.
  unfold EventbriteLoader.run. within_tac.
  - apply within_start_date.
  - apply within_get_events.
  - apply within_events_loop.
  - apply within_refresh_views.
Qed.

(** ** The start of the window *)

Lemma foldl_max_spec (l : list Z) (t : Z) :
  foldl Z.max t l ∈ t :: l /\ forall x, x ∈ t :: l -> (x <= foldl Z.max t l)%Z.
Proof.
  revert t. induction l as [|y l IH]; intros t; simpl.
  - split; [by left|]. intros x Hx. apply list_elem_of_singleton in Hx. lia.
  - destruct (IH (Z.max t y)) as [Hin Hle]. split.
    + apply elem_of_cons in Hin as [Heq|Hin].
      * rewrite Heq. destruct (Z.max_spec t y) as [[_ ->]|[_ ->]].
        -- right. by left.
        -- by left.
      * right. by right.
    + intros x Hx. apply elem_of_cons in Hx as [->|Hx].
      * specialize (Hle (Z.max t y) ltac:(by left)). lia.
      * apply elem_of_cons in Hx as [->|Hx].
        -- specialize (Hle (Z.max t y) ltac:(by left)). lia.
        -- apply Hle. by right.
Qed.

(** X14. The start of the window that [run] asks events for. The load
    times considered are those of the event rows that have a start. With
    none, the start is [None] and the clock is not read. Otherwise the
    start is the date prefix of the earlier of two instants: the local time
    now less one day, and the latest of those load times (which are UTC
    readings); the clock is read once, and the store is only read. *)
Theorem start_date_window (env : Env) (st : state) :
  let times := load_times (rows_of (db st) "events") in
  let result := EventbriteLoader.start_date env st in
  added st result.2 = [ReadSql (SelectMaxLoad (PG_SCHEMA env))] /\
  db result.2 = db st /\
  (times = [] ->
   result.1 = Ok VNone /\ clock_reads result.2 = clock_reads st) /\
  (times <> [] ->
   exists last,
     last ∈ times /\ (forall t, t ∈ times -> (t <= last)%Z) /\
     result.1
     = Ok (VStr (date_prefix env
                   (Z.min (clock env (clock_reads st) + local_offset env
                           - EventbriteLoader.one_day) last))) /\
     clock_reads result.2 = S (clock_reads st)).
Proof.
  intros times result. unfold result, EventbriteLoader.start_date,
    Database.last_event_load_date, read_sql, bind, emit, get_state, lift,
    db_query. cbn [fst snd db trace]. fold times.
  destruct times as [|t l] eqn:Ht; simpl.
  - split; [by apply added_app|]. split; [done|]. split; [done|]. by intros [].
  - split; [by apply added_app|]. split; [done|]. split; [done|]. intros _.
    destruct (foldl_max_spec l t) as [Hin Hle].
    exists (foldl Z.max t l). by repeat split.
Qed.
